(** * txstatsd: the message processor of [txstatsd/server/processor.py]

    A shallow embedding of [normalize_key], [BaseMessageProcessor.process]
    and [MessageProcessor] (ingest and flush), with the properties the
    specification states about them.

    Conventions of the embedding.
    - A Python 2 [str] is a Rocq [string] (a sequence of bytes).
    - A Python [float] is an IEEE 754 double ([Num.float]): a finite one is
      the rational it denotes, in lowest terms; the others are the two
      infinities and NaN.  Every operation rounds its exact result to the
      nearest double, a tie going to the even one ([Num.nearest]), overflows
      to an infinity and underflows through the subnormal numbers to zero,
      as the hardware does.  The sign of a zero is not kept: [-0.0] and
      [0.0] are equal in Python and differ in how they print only.  How a
      value prints, [0] or [0.0], is not modelled either.
    - A Python [int] is an integer of a machine word; [Z] holds it.  Such
      an integer never overflows when it is converted to a [float].
    - A [dict] is a [gmap]; [iteritems] walks it in the order of
      [map_to_list].
    - A method that mutates [self] is a function from the processor state to
      an [outcome]: the new state with a result, or an exception together
      with the state as the exception left it.
    - [log.msg] appends to the [log] field of the state.
    - [time_function n] is the reading that the call number [n] the
      processor itself makes of its [time_function] gets, a finite number;
      [clock] counts these calls.  The meters and the plugin metrics are
      given the same function; the calls they make of it are theirs.
    - The arguments [interval] and [percent] of [flush] are [int]s, as
      their defaults 10000 and 90 are: [interval / 1000] is the floor
      division of Python 2.
    - A generator is run to its end and gives the list of what it yields; an
      exception ends it, and the samples yielded before are not kept. *)

From Stdlib Require Import ZArith QArith Qround Qabs Qpower Ascii String List.
From Stdlib Require Import Lia Lqa.
From stdpp Require Import base option list strings pretty gmap fin_maps sorting.

Local Open Scope string_scope.
Local Open Scope Z_scope.

(** ** Bytes and character classes *)

Module Chars.

Definition code (c : ascii) : N := N_of_ascii c.

Definition between (lo hi : N) (c : ascii) : bool :=
  (N.leb lo (code c) && N.leb (code c) hi)%bool.

(** [\s] of [re] on a byte string: space, [\t], [\n], [\v], [\f], [\r].
    [str.strip()] and [float()] skip the same six bytes. *)
Definition is_space (c : ascii) : bool :=
  (N.eqb (code c) 32 || between 9 13 c)%bool.

(** [\d] *)
Definition is_digit (c : ascii) : bool := between 48 57 c.

Definition is_slash (c : ascii) : bool := N.eqb (code c) 47.

(** The class [a-zA-Z_\-0-9\.], whose complement [NON_ALNUM] deletes. *)
Definition is_key_char (c : ascii) : bool :=
  (between 97 122 c || between 65 90 c || N.eqb (code c) 95
   || N.eqb (code c) 45 || is_digit c || N.eqb (code c) 46)%bool.

(** The class [\d\.] of [RATE]. *)
Definition is_rate_char (c : ascii) : bool :=
  (is_digit c || N.eqb (code c) 46)%bool.

Definition digit_value (c : ascii) : Z := Z.of_N (code c) - 48.

Definition lower (c : ascii) : ascii :=
  if between 65 90 c then ascii_of_N (code c + 32) else c.

End Chars.

(** ** The string operations the processor uses *)

Module Str.

(** [pattern.sub(repl, s)] for a pattern [[class]+]: every maximal run of
    bytes of the class is replaced by [repl].  [in_run] tells that the
    previous byte was in the class, so that the run was already replaced. *)
Fixpoint sub_runs (cls : ascii -> bool) (repl : string) (in_run : bool)
         (s : string) : string :=
  match s with
  | EmptyString => EmptyString
  | String c r =>
      if cls c
      then (if in_run then sub_runs cls repl true r
            else repl ++ sub_runs cls repl true r)
      else String c (sub_runs cls repl false r)
  end.

(** [pattern.sub("", s)] for a pattern [[class]]: the bytes of the class
    are removed. *)
Fixpoint remove (cls : ascii -> bool) (s : string) : string :=
  match s with
  | EmptyString => EmptyString
  | String c r => if cls c then remove cls r else String c (remove cls r)
  end.

(** [c in s] for a one-byte string [c]. *)
Fixpoint contains (c : ascii) (s : string) : bool :=
  match s with
  | EmptyString => false
  | String d r => if Ascii.eqb c d then true else contains c r
  end.

Fixpoint lstrip (s : string) : string :=
  match s with
  | EmptyString => EmptyString
  | String c r => if Chars.is_space c then lstrip r else s
  end.

(** Every byte of [s] is of the class. *)
Fixpoint all (cls : ascii -> bool) (s : string) : bool :=
  match s with
  | EmptyString => true
  | String c r => (cls c && all cls r)%bool
  end.

Fixpoint rstrip (s : string) : string :=
  match s with
  | EmptyString => EmptyString
  | String c r => if all Chars.is_space s then EmptyString else String c (rstrip r)
  end.

(** [s.strip()] *)
Definition strip (s : string) : string := rstrip (lstrip s).

(** [s.split(sep)] for a one-byte separator: never empty. *)
Fixpoint split (sep : ascii) (s : string) : list string :=
  match s with
  | EmptyString => [EmptyString]
  | String c r =>
      if Ascii.eqb c sep then EmptyString :: split sep r
      else match split sep r with
           | f :: fs => String c f :: fs
           | [] => [String c EmptyString]
           end
  end.

(** [s.split(sep, 1)]: the text before the first separator and the text
    after it, or [s] alone when it has no separator. *)
Fixpoint split1 (sep : ascii) (s : string) : string * option string :=
  match s with
  | EmptyString => (EmptyString, None)
  | String c r =>
      if Ascii.eqb c sep then (EmptyString, Some r)
      else let '(a, b) := split1 sep r in (String c a, b)
  end.

(** The longest prefix of bytes of a class, and the rest. *)
Fixpoint span (cls : ascii -> bool) (s : string) : string * string :=
  match s with
  | EmptyString => (EmptyString, EmptyString)
  | String c r =>
      if cls c then let '(a, b) := span cls r in (String c a, b)
      else (EmptyString, s)
  end.

Fixpoint map (f : ascii -> ascii) (s : string) : string :=
  match s with
  | EmptyString => EmptyString
  | String c r => String (f c) (map f r)
  end.

(** ["%s" % n] for an [int]. *)
Definition of_Z (n : Z) : string := pretty n.

End Str.

(** ** [normalize_key] *)

(** [SPACES.sub("_", key)], [SLASHES.sub("-", key)], [NON_ALNUM.sub("", key)] *)
Definition normalize_key (key : string) : string :=
let key := Str.sub_runs Chars.is_space "_" false key in
let key := Str.sub_runs Chars.is_slash "-" false key in
let key := Str.remove (fun c => negb (Chars.is_key_char c)) key in
key.


(** ** Numbers: [float], [int()], [round()], slices *)

Module Num.

Local Open Scope Q_scope.

(** *** Doubles *)

(** A [float]: a finite double, as the rational it denotes in lowest terms,
    an infinity, or NaN. *)
Inductive float :=
| Finite (q : Q)
| Inf (negative : bool)
| NaN.

(** The exponent of a positive rational: the [e] with
    [2 ^ e <= q < 2 ^ (e + 1)]. *)
Definition ilog2 (q : Q) : Z :=
  let e := (Z.log2 (Qnum q) - Z.log2 (Zpos (Qden q)))%Z in
  if Qle_bool (2 ^ e) q then e else (e - 1)%Z.

(** The nearest integer, a tie going to the even one. *)
Definition round_half_even (q : Q) : Z :=
  let f := Qfloor q in
  match Qcompare (q - inject_Z f) (1 # 2) with
  | Lt => f
  | Gt => (f + 1)%Z
  | Eq => if Z.even f then f else (f + 1)%Z
  end.

(** The unit in the last place of the doubles around a positive [q]: a
    double has 53 significant bits, and the subnormal ones are the multiples
    of [2 ^ -1074]. *)
Definition ulp (q : Q) : Q := 2 ^ Z.max (ilog2 q - 52) (-1074).

Definition nearest_pos (q : Q) : Q :=
  Qred (inject_Z (round_half_even (q / ulp q)) * ulp q).

(** The double nearest to [q], a tie going to the one with an even
    significand, were the exponent not bounded above. *)
Definition nearest (q : Q) : Q :=
  match Qcompare q 0 with
  | Eq => 0
  | Gt => nearest_pos q
  | Lt => Qred (- nearest_pos (- q))
  end.

(** The double an exact result [q] is rounded to: the nearest one, or an
    infinity when that is beyond the largest double. *)
Definition fl (q : Q) : float :=
  let r := nearest q in
  if Qle_bool (2 ^ 1024) r then Inf false
  else if Qle_bool r (- (2 ^ 1024)) then Inf true
  else Finite r.

Definition is_negative (q : Q) : bool := negb (Qle_bool 0 q).

Definition opp (x : float) : float :=
  match x with
  | Finite q => Finite (Qred (- q))
  | Inf s => Inf (negb s)
  | NaN => NaN
  end.

(** [x + y] *)
Definition add (x y : float) : float :=
  match x, y with
  | Finite a, Finite b => fl (a + b)
  | Finite _, Inf s | Inf s, Finite _ => Inf s
  | Inf s, Inf t => if Bool.eqb s t then Inf s else NaN
  | _, _ => NaN
  end.

(** [x - y] *)
Definition sub (x y : float) : float := add x (opp y).

(** [x * y] *)
Definition mul (x y : float) : float :=
  match x, y with
  | Finite a, Finite b => fl (a * b)
  | Finite a, Inf s | Inf s, Finite a =>
      if Qeq_bool a 0 then NaN else Inf (xorb s (is_negative a))
  | Inf s, Inf t => Inf (xorb s t)
  | _, _ => NaN
  end.

(** [x / y] in true division, for a [y] that is not zero; the caller raises
    [ZeroDivisionError] when [is_zero y]. *)
Definition div (x y : float) : float :=
  match x, y with
  | Finite a, Finite b => fl (a / b)
  | Finite _, Inf _ => Finite 0
  | Inf s, Finite b => Inf (xorb s (is_negative b))
  | _, _ => NaN
  end.

(** [x == 0.0] *)
Definition is_zero (x : float) : bool :=
  match x with
  | Finite q => Qeq_bool q 0
  | _ => false
  end.

(** [float(n)] for an [int]. *)
Definition of_Z (n : Z) : float := fl (inject_Z n).

(** [sum(l)] *)
Definition sum (l : list float) : float := fold_left add l (Finite 0).

(** [x < y] *)
Definition ltb (x y : float) : bool :=
  match x, y with
  | Finite a, Finite b => negb (Qle_bool b a)
  | Finite _, Inf s => negb s
  | Inf s, Finite _ => s
  | Inf s, Inf t => (s && negb t)%bool
  | _, _ => false
  end.

(** [x == y] *)
Definition eqb (x y : float) : bool :=
  match x, y with
  | Finite a, Finite b => Qeq_bool a b
  | Inf s, Inf t => Bool.eqb s t
  | _, _ => false
  end.

(** The order a sort keeps two neighbours in: the second is not less than
    the first.  Without a NaN this is [x <= y]. *)
Definition le (x y : float) : Prop := ltb y x = false.

#[global] Instance le_dec : RelDecision le :=
  fun x y => decide (ltb y x = false).

(** [l.sort()] on floats: a stable merge sort, which takes an element of
    the right run when it is less than the one of the left run.  Without a
    NaN the result is the ascending order of the values; the place the sort
    of Python gives a NaN is not modelled. *)
Definition sort (l : list float) : list float := merge_sort le l.

(** *** Conversions to integers, on the value of a finite double *)

(** [int(x)]: truncation towards zero. *)
Definition int (x : Q) : Z :=
  if Qle_bool 0 x then Qfloor x else Qceiling x.

(** [round(x)] of Python 2: the nearest integer, a tie going away from
    zero. *)
Definition round (x : Q) : Q :=
  if Qle_bool 0 x then inject_Z (Qfloor (x + (1 # 2)))
  else inject_Z (Qceiling (x - (1 # 2))).

(** *** [float(s)] *)

(** The result of [float(s)]: a float, or [ValueError]. *)
Inductive float_parse :=
| Parsed (x : float)
| Invalid.

(** The integer written by a string of decimal digits, most significant
    first. *)
Fixpoint digits_value (acc : Z) (s : string) : Z :=
  match s with
  | EmptyString => acc
  | String c r => digits_value (10 * acc + Chars.digit_value c)%Z r
  end.

(** [m * 10 ^ e] in lowest terms. *)
Definition scale10 (m e : Z) : Q :=
  if (0 <=? e)%Z then Qred (inject_Z (m * 10 ^ e))
  else Qred (Qmake m (Z.to_pos (10 ^ (- e)))).

(** An optional sign: [true] for [-]. *)
Definition take_sign (s : string) : bool * string :=
  match s with
  | String "-" r => (true, r)
  | String "+" r => (false, r)
  | _ => (false, s)
  end.

(** The exponent part of a decimal literal: nothing, or [e] or [E], an
    optional sign and at least one digit, up to the end of the string. *)
Definition exponent (s : string) : option Z :=
  match s with
  | EmptyString => Some 0%Z
  | String c r =>
      if (Ascii.eqb c "e" || Ascii.eqb c "E")%bool then
        let '(neg, r) := take_sign r in
        let '(ds, rest) := Str.span Chars.is_digit r in
        match ds, rest with
        | String _ _, EmptyString =>
            Some (if neg then - digits_value 0 ds else digits_value 0 ds)%Z
        | _, _ => None
        end
      else None
  end.

(** [float(s)] for a [str]: surrounding white space is skipped; then an
    optional sign and either [inf], [infinity] or [nan] in any case, or
    digits with an optional point and an optional exponent, with a digit
    before or after the point.  The decimal number is rounded to the nearest
    double. *)
Definition float_of_string (s : string) : float_parse :=
  let '(neg, body) := take_sign (Str.strip s) in
  let word := Str.map Chars.lower body in
  if (String.eqb word "inf" || String.eqb word "infinity")%bool
  then Parsed (Inf neg)
  else if String.eqb word "nan" then Parsed NaN
  else
    let '(ip, r1) := Str.span Chars.is_digit body in
    let '(fp, r2) :=
      match r1 with
      | String "." r => Str.span Chars.is_digit r
      | _ => (EmptyString, r1)
      end in
    match (ip ++ fp)%string with
    | EmptyString => Invalid
    | ds =>
        match exponent r2 with
        | None => Invalid
        | Some e =>
            let m := digits_value 0 ds in
            Parsed (fl (scale10 (if neg then - m else m)
                                (e - Z.of_nat (String.length fp))))
        end
    end.

(** *** Slices *)

(** [l[:i]] *)
Definition slice_to {A} (i : Z) (l : list A) : list A :=
  if (0 <=? i)%Z then take (Z.to_nat i) l
  else take (length l - Z.to_nat (- i)) l.

(** [l[i:j]] for [0 <= i <= j] *)
Definition slice {A} (i j : nat) (l : list A) : list A :=
  take (j - i) (drop i l).

End Num.

(** [RATE.match(s)] for [RATE = "^@([\d\.]+)"]: the group, when [s] starts
    with [@] and at least one digit or point. *)
Definition RATE_match (s : string) : option string :=
  match s with
  | String "@" r =>
      match Str.span Chars.is_rate_char r with
      | (String c g, _) => Some (String c g)
      | _ => None
      end
  | _ => None
  end.

(** ** The processor state *)

(** A Graphite sample: metric path, value, timestamp. *)
Definition sample : Type := string * Num.float * Z.

Inductive exn :=
| ZeroDivisionError
| ValueError
| IndexError
| KeyError
| UnboundLocalError.

(** What [log.msg] is called with. *)
Inductive log_entry :=
| BadLine (message : string)
| Flushed (value : Z) (name : string) (duration : Num.float)
| Processing (count : Z) (metric_type : string) (duration : Num.float).

(** The [rate] of a counter: the integer [1], or the text [RATE] matched. *)
Inductive rate_value :=
| RateInt (n : Z)
| RateStr (s : string).

(** The collaborators whose code is outside [processor.py]: the meter
    reporter of [txstatsd.metrics.metermetric] and the metrics the plugins
    build.  The processor only constructs them, passes them values and asks
    them for their samples; what they compute, and what they read of the
    clock to do so, is left open. *)
Class Reporters := {
  meter : Type;
  MeterMetricReporter : string -> meter;
  meter_mark : Num.float -> meter -> meter;
  meter_report : Z -> meter -> meter * list sample;
  plugin_metric : Type;
  plugin_process : list string -> plugin_metric -> plugin_metric;
  plugin_flush : Z -> Z -> plugin_metric -> plugin_metric * list sample
}.

Section Processor.

Context `{Reporters}.

(** A plugin, as [__init__] and [process_plugin_metric] use it. *)
Record factory := {
  metric_type_of : string;
  factory_name : string;
  build_metric : string -> string -> plugin_metric
}.

(** The attributes [__init__] sets once and for all. *)
Record settings := {
  time_function : nat -> Q;
  legacy_namespace : bool;
  delete_idle_counters : bool;
  lightweight_mode : bool;
  stats_prefix : string;
  internal_metrics_prefix : string;
  count_prefix : string;
  timer_prefix : string;
  gauge_prefix : string;
  plugins : gmap string factory
}.

(** The processor: its settings, the number of clock readings taken so far,
    the self-metrics, the accumulator maps and the log. *)
Record processor := {
  conf : settings;
  clock : nat;
  process_timings : gmap string Num.float;
  by_type : gmap string Z;
  last_flush_duration : Num.float;
  last_process_duration : Num.float;
  timer_metrics : gmap string (list Num.float);
  counter_metrics : gmap string Num.float;
  gauge_metrics : gmap string Num.float;
  meter_metrics : gmap string meter;
  plugin_metrics : gmap string plugin_metric;
  log : list log_entry
}.

Definition set_clock (v : nat) (st : processor) : processor :=
  {| conf := conf st; clock := v;
     process_timings := process_timings st; by_type := by_type st;
     last_flush_duration := last_flush_duration st;
     last_process_duration := last_process_duration st;
     timer_metrics := timer_metrics st;
     counter_metrics := counter_metrics st;
     gauge_metrics := gauge_metrics st; meter_metrics := meter_metrics st;
     plugin_metrics := plugin_metrics st; log := log st |}.

Definition set_process_timings (v : gmap string Num.float)
           (st : processor)
  : processor :=
  {| conf := conf st; clock := clock st;
     process_timings := v; by_type := by_type st;
     last_flush_duration := last_flush_duration st;
     last_process_duration := last_process_duration st;
     timer_metrics := timer_metrics st;
     counter_metrics := counter_metrics st;
     gauge_metrics := gauge_metrics st; meter_metrics := meter_metrics st;
     plugin_metrics := plugin_metrics st; log := log st |}.

Definition set_by_type (v : gmap string Z) (st : processor) : processor :=
  {| conf := conf st; clock := clock st;
     process_timings := process_timings st; by_type := v;
     last_flush_duration := last_flush_duration st;
     last_process_duration := last_process_duration st;
     timer_metrics := timer_metrics st;
     counter_metrics := counter_metrics st;
     gauge_metrics := gauge_metrics st; meter_metrics := meter_metrics st;
     plugin_metrics := plugin_metrics st; log := log st |}.

Definition set_last_flush_duration (v : Num.float) (st : processor)
  : processor :=
  {| conf := conf st; clock := clock st;
     process_timings := process_timings st; by_type := by_type st;
     last_flush_duration := v;
     last_process_duration := last_process_duration st;
     timer_metrics := timer_metrics st;
     counter_metrics := counter_metrics st;
     gauge_metrics := gauge_metrics st; meter_metrics := meter_metrics st;
     plugin_metrics := plugin_metrics st; log := log st |}.

Definition set_last_process_duration (v : Num.float) (st : processor)
  : processor :=
  {| conf := conf st; clock := clock st;
     process_timings := process_timings st; by_type := by_type st;
     last_flush_duration := last_flush_duration st;
     last_process_duration := v;
     timer_metrics := timer_metrics st;
     counter_metrics := counter_metrics st;
     gauge_metrics := gauge_metrics st; meter_metrics := meter_metrics st;
     plugin_metrics := plugin_metrics st; log := log st |}.

Definition set_timer_metrics (v : gmap string (list Num.float))
           (st : processor)
  : processor :=
  {| conf := conf st; clock := clock st;
     process_timings := process_timings st; by_type := by_type st;
     last_flush_duration := last_flush_duration st;
     last_process_duration := last_process_duration st;
     timer_metrics := v;
     counter_metrics := counter_metrics st;
     gauge_metrics := gauge_metrics st; meter_metrics := meter_metrics st;
     plugin_metrics := plugin_metrics st; log := log st |}.

Definition set_counter_metrics (v : gmap string Num.float)
           (st : processor)
  : processor :=
  {| conf := conf st; clock := clock st;
     process_timings := process_timings st; by_type := by_type st;
     last_flush_duration := last_flush_duration st;
     last_process_duration := last_process_duration st;
     timer_metrics := timer_metrics st;
     counter_metrics := v;
     gauge_metrics := gauge_metrics st; meter_metrics := meter_metrics st;
     plugin_metrics := plugin_metrics st; log := log st |}.

Definition set_gauge_metrics (v : gmap string Num.float) (st : processor)
  : processor :=
  {| conf := conf st; clock := clock st;
     process_timings := process_timings st; by_type := by_type st;
     last_flush_duration := last_flush_duration st;
     last_process_duration := last_process_duration st;
     timer_metrics := timer_metrics st;
     counter_metrics := counter_metrics st;
     gauge_metrics := v; meter_metrics := meter_metrics st;
     plugin_metrics := plugin_metrics st; log := log st |}.

Definition set_meter_metrics (v : gmap string meter) (st : processor)
  : processor :=
  {| conf := conf st; clock := clock st;
     process_timings := process_timings st; by_type := by_type st;
     last_flush_duration := last_flush_duration st;
     last_process_duration := last_process_duration st;
     timer_metrics := timer_metrics st;
     counter_metrics := counter_metrics st;
     gauge_metrics := gauge_metrics st; meter_metrics := v;
     plugin_metrics := plugin_metrics st; log := log st |}.

Definition set_plugin_metrics (v : gmap string plugin_metric)
           (st : processor) : processor :=
  {| conf := conf st; clock := clock st;
     process_timings := process_timings st; by_type := by_type st;
     last_flush_duration := last_flush_duration st;
     last_process_duration := last_process_duration st;
     timer_metrics := timer_metrics st;
     counter_metrics := counter_metrics st;
     gauge_metrics := gauge_metrics st; meter_metrics := meter_metrics st;
     plugin_metrics := v; log := log st |}.

Definition set_log (v : list log_entry) (st : processor) : processor :=
  {| conf := conf st; clock := clock st;
     process_timings := process_timings st; by_type := by_type st;
     last_flush_duration := last_flush_duration st;
     last_process_duration := last_process_duration st;
     timer_metrics := timer_metrics st;
     counter_metrics := counter_metrics st;
     gauge_metrics := gauge_metrics st; meter_metrics := meter_metrics st;
     plugin_metrics := plugin_metrics st; log := v |}.

(** [MessageProcessor.__init__] *)
Definition MessageProcessor (time_function : nat -> Q)
           (plugins : list factory) (legacy_namespace : bool)
           (message_prefix internal_metrics_prefix : string)
           (delete_idle_counters lightweight_mode : bool) : processor :=
  let stats_prefix := "stats." in
  {| conf :=
       {| time_function := time_function;
          legacy_namespace := legacy_namespace;
          delete_idle_counters := delete_idle_counters;
          lightweight_mode := lightweight_mode;
          stats_prefix :=
            if legacy_namespace then stats_prefix else message_prefix ++ ".";
          internal_metrics_prefix :=
            if legacy_namespace then "statsd." else internal_metrics_prefix;
          count_prefix :=
            if legacy_namespace then "stats_counts."
            else (message_prefix ++ ".") ++ "counters.";
          timer_prefix :=
            if legacy_namespace then stats_prefix ++ "timers."
            else (message_prefix ++ ".") ++ "timers.";
          gauge_prefix :=
            if legacy_namespace then stats_prefix ++ "gauge."
            else (message_prefix ++ ".") ++ "gauges.";
          plugins :=
            fold_left (fun m plugin => <[metric_type_of plugin := plugin]> m)
                      plugins ∅ |};
     clock := 0%nat;
     process_timings := ∅;
     by_type := ∅;
     last_flush_duration := Num.Finite 0;
     last_process_duration := Num.Finite 0;
     timer_metrics := ∅;
     counter_metrics := ∅;
     gauge_metrics := ∅;
     meter_metrics := ∅;
     plugin_metrics := ∅;
     log := [] |}.

(** ** Methods as state transformers *)

(** How a call ends: it returns, or it raises with the state as it was
    left. *)
Inductive outcome (A : Type) :=
| Ok (a : A) (st : processor)
| Raise (e : exn) (st : processor).

Arguments Ok {A} a st.
Arguments Raise {A} e st.

Definition M (A : Type) : Type := processor -> outcome A.

Definition ret {A} (a : A) : M A := fun st => Ok a st.

Definition bind {A B} (m : M A) (k : A -> M B) : M B :=
  fun st =>
    match m st with
    | Ok a st' => k a st'
    | Raise e st' => Raise e st'
    end.

Definition raise {A} (e : exn) : M A := fun st => Raise e st.

Definition get : M processor := fun st => Ok st st.

Definition modify (f : processor -> processor) : M unit :=
  fun st => Ok tt (f st).

End Processor.

Arguments Ok {_ _} a st.
Arguments Raise {_ _} e st.

Declare Scope proc_scope.
Delimit Scope proc_scope with proc.
Notation "'let*' x ':=' m 'in' k" := (bind m (fun x => k))
  (at level 10, x pattern, m at level 100, k at level 200) : proc_scope.
Notation "m ';;;' k" := (bind m (fun _ => k))
  (at level 100, k at level 200, right associativity) : proc_scope.

Section Methods.

Context `{Reporters}.

Local Open Scope proc_scope.

(** [self.time_function()]: the next clock reading. *)
Definition call_time_function : M Q :=
  fun st => Ok (time_function (conf st) (clock st)) (set_clock (S (clock st)) st).

(** [l[i]] *)
Definition item {A} (l : list A) (i : nat) : M A :=
  match l !! i with
  | Some x => ret x
  | None => raise IndexError
  end.

(** [l[-1]] *)
Definition last_item {A} (l : list A) : M A :=
  match last l with
  | Some x => ret x
  | None => raise IndexError
  end.

(** [for x in l: body(x)], collecting what the bodies produce. *)
Fixpoint for_each {A B} (l : list A) (body : A -> M B) : M (list B) :=
  match l with
  | [] => ret []
  | x :: r =>
      let* y := body x in
      let* ys := for_each r body in
      ret (y :: ys)
  end.

(** [BaseMessageProcessor.fail]: log and discard a malformed message. *)
Definition fail (message : string) : M unit :=
  modify (fun st => set_log (log st ++ [BadLine message]) st).

(** *** Ingest *)

Definition compose_timer_metric (key : string) (duration : Num.float)
  : M unit :=
  modify (fun st =>
    let timers := default [] (timer_metrics st !! key) in
    set_timer_metrics (<[key := (timers ++ [duration])%list]> (timer_metrics st)) st).

Definition process_timer_metric (key duration message : string) : M unit :=
  match Num.float_of_string duration with
  | Num.Invalid => fail message
  | Num.Parsed duration => compose_timer_metric key duration
  end.

(** [float(rate)] *)
Definition float_of_rate (rate : rate_value) : M Num.float :=
  match rate with
  | RateInt n => ret (Num.of_Z n)
  | RateStr s =>
      match Num.float_of_string s with
      | Num.Invalid => raise ValueError
      | Num.Parsed r => ret r
      end
  end.

(** The entry is created before the sum is computed; the [KeyError] the
    source guards against cannot occur, the key having just been put. *)
Definition compose_counter_metric (key : string) (value : Num.float)
           (rate : rate_value) : M unit :=
  (let* st := get in
   match counter_metrics st !! key with
   | None =>
       modify (set_counter_metrics
                 (<[key := Num.Finite 0]> (counter_metrics st)))
   | Some _ => ret tt
   end) ;;;
  let* st := get in
  let current := default (Num.Finite 0) (counter_metrics st !! key) in
  let* r := float_of_rate rate in
  if Num.is_zero r then raise ZeroDivisionError
  else
    let total := Num.add current (Num.mul value (Num.div (Num.of_Z 1) r)) in
    modify (set_counter_metrics (<[key := total]> (counter_metrics st))).

Definition process_counter_metric (key : string) (composite : list string)
           (message : string) : M unit :=
  let* first := item composite 0 in
  match Num.float_of_string first with
  | Num.Invalid => fail message
  | Num.Parsed value =>
      if Nat.eqb (length composite) 3 then
        let* third := item composite 2 in
        match RATE_match third with
        | None => fail message
        | Some group => compose_counter_metric key value (RateStr group)
        end
      else compose_counter_metric key value (RateInt 1)
  end.

Definition compose_gauge_metric (key : string) (value : Num.float)
  : M unit :=
  modify (fun st => set_gauge_metrics (<[key := value]> (gauge_metrics st)) st).

(** After [self.fail(message)] the handler does not return: the call of
    [compose_gauge_metric] reads the local [value], which was never bound. *)
Definition process_gauge_metric (key composite message : string) : M unit :=
  match Str.split ":" composite with
  | [v] =>
      match Num.float_of_string v with
      | Num.Invalid => fail message ;;; raise UnboundLocalError
      | Num.Parsed value => compose_gauge_metric key value
      end
  | _ => fail message
  end.

Definition compose_meter_metric (key : string) (value : Num.float)
  : M unit :=
  modify (fun st =>
    let metric := default (MeterMetricReporter key) (meter_metrics st !! key) in
    set_meter_metrics (<[key := meter_mark value metric]> (meter_metrics st)) st).

(** As [process_gauge_metric]: no [return] after [self.fail(message)]. *)
Definition process_meter_metric (key composite message : string) : M unit :=
  match Str.split ":" composite with
  | [v] =>
      match Num.float_of_string v with
      | Num.Invalid => fail message ;;; raise UnboundLocalError
      | Num.Parsed value => compose_meter_metric key value
      end
  | _ => fail message
  end.

Definition get_message_prefix (kind : string) : string := "stats." ++ kind.

Definition process_plugin_metric (metric_type key : string)
           (items : list string) (message : string) : M unit :=
  let* st := get in
  let* metric :=
    match plugin_metrics st !! key with
    | Some metric => ret metric
    | None =>
        match plugins (conf st) !! metric_type with
        | Some factory =>
            ret (build_metric factory
                   (get_message_prefix (factory_name factory)) key)
        | None => raise KeyError
        end
    end in
  modify (fun st =>
    set_plugin_metrics
      (<[key := plugin_process items metric]> (plugin_metrics st)) st).

(** [d.setdefault(k, 0); d[k] += x] *)
Definition setdefault_add {V} (zero : V) (add : V -> V -> V) (k : string)
           (x : V) (d : gmap string V) : gmap string V :=
  <[k := add (default zero (d !! k)) x]> d.

(** [MessageProcessor.process_message]: the handlers return nothing, so a
    message a handler logged and dropped is counted like any other; only an
    unknown type returns before the self-metrics. *)
Definition process_message (message metric_type key : string)
           (fields : list string) : M unit :=
  let* start := call_time_function in
  let* st := get in
  let* known :=
    if String.eqb metric_type "c" then
      process_counter_metric key fields message ;;; ret true
    else if String.eqb metric_type "ms" then
      (let* first := item fields 0 in
       process_timer_metric key first message) ;;; ret true
    else if String.eqb metric_type "g" then
      (let* first := item fields 0 in
       process_gauge_metric key first message) ;;; ret true
    else if String.eqb metric_type "m" then
      (let* first := item fields 0 in
       process_meter_metric key first message) ;;; ret true
    else if bool_decide (is_Some (plugins (conf st) !! metric_type)) then
      process_plugin_metric metric_type key fields message ;;; ret true
    else fail message ;;; ret false in
  if known : bool then
    let* now := call_time_function in
    modify (fun st =>
      set_process_timings
        (setdefault_add (Num.Finite 0) Num.add metric_type
                        (Num.sub (Num.Finite now) (Num.Finite start))
                        (process_timings st)) st) ;;;
    modify (fun st =>
      set_by_type (setdefault_add 0%Z Z.add metric_type 1%Z (by_type st)) st)
  else ret tt.

(** [BaseMessageProcessor.process] *)
Definition process (message : string) : M unit :=
  if negb (Str.contains ":" message) then fail message
  else
    match Str.split1 ":" (Str.strip message) with
    | (_, None) => raise ValueError
    | (key, Some data) =>
        if negb (Str.contains "|" data) then fail message
        else
          let fields := Str.split "|" data in
          if ((length fields <? 2)%nat || (3 <? length fields)%nat)%bool
          then fail message
          else
            let key := normalize_key key in
            let* metric_type := item fields 1 in
            process_message message metric_type key fields
    end.

(** *** Flush *)

(** [x / n] for a float [x] and an [int] [n].  In [count / interval] the
    [count] of a counter that was reset is the [int] [0], and the division
    the floor division, which for [0 / interval] gives the same [0]. *)
Definition true_div (x : Num.float) (n : Z) : M Num.float :=
  if (n =? 0)%Z then raise ZeroDivisionError
  else ret (Num.div x (Num.of_Z n)).

(** The tuple [output] of a counter, or [output[1:2]] in lightweight mode. *)
Definition counter_output (c : settings) (key : string)
           (count value : Num.float) (timestamp : Z) : list sample :=
  let output : list sample :=
    if negb (legacy_namespace c) then
      [(count_prefix c ++ key ++ ".rate", value, timestamp);
       (count_prefix c ++ key ++ ".count", count, timestamp)]
    else
      [(stats_prefix c ++ key, value, timestamp);
       (count_prefix c ++ key, count, timestamp)] in
  if lightweight_mode c then Num.slice 1 2 output else output.

(** One round of the loop of [flush_counter_metrics]. *)
Definition flush_counter (interval timestamp : Z)
           (entry : string * Num.float) : M (list sample) :=
  let '(key, count) := entry in
  modify (fun st =>
    set_counter_metrics (<[key := Num.Finite 0]> (counter_metrics st)) st) ;;;
  let* value := true_div count interval in
  let* st := get in
  ret (counter_output (conf st) key count value timestamp).

Definition flush_counter_metrics (interval timestamp : Z)
  : M (list (list sample)) :=
  let* st := get in
  let* out := for_each (map_to_list (counter_metrics st))
                       (flush_counter interval timestamp) in
  (if delete_idle_counters (conf st)
   then modify (set_counter_metrics ∅) else ret tt) ;;;
  ret out.

(** The statistics of one timer, computed on its sorted samples: [lower],
    [upper], [count], [mean] and [threshold_upper]. *)
Record timer_stats := {
  ts_lower : Num.float;
  ts_upper : Num.float;
  ts_count : Z;
  ts_mean : Num.float;
  ts_threshold_upper : Num.float
}.

(** [threshold_value = ((100 - percent) / 100.0)] and
    [index = count - int(round(threshold_value * count))].  The operands
    are [int]s and a quotient of an [int] by 100, far from the largest
    double: the quotient and the product are the nearest doubles, and
    [round] and [int] are taken on their values. *)
Definition trim_index (percent : Z) (count : nat) : Z :=
  let threshold_value :=
    Num.nearest (Num.nearest (inject_Z (100 - percent)) / 100) in
  Z.of_nat count
  - Num.int (Num.round
               (Num.nearest
                  (threshold_value * Num.nearest (inject_Z (Z.of_nat count))))).

(** The body of [if count > 0] up to the dictionary [items]. *)
Definition compute_timer_stats (percent : Z) (timers : list Num.float)
  : M timer_stats :=
  let timers := Num.sort timers in
  let* lower := item timers 0 in
  let* upper := last_item timers in
  let count := length timers in
  if (1 <? count)%nat then
    let index := trim_index percent count in
    let timers := Num.slice_to index timers in
    let* threshold_upper := last_item timers in
    let* mean := true_div (Num.sum timers) index in
    ret {| ts_lower := lower; ts_upper := upper; ts_count := Z.of_nat count;
           ts_mean := mean; ts_threshold_upper := threshold_upper |}
  else
    ret {| ts_lower := lower; ts_upper := upper; ts_count := Z.of_nat count;
           ts_mean := lower; ts_threshold_upper := upper |}.

(** [a < b] on the tuples [(name, value, timestamp)]: the first components
    that are not equal decide. *)
Definition sample_ltb (a b : sample) : bool :=
  let '(n1, v1, t1) := a in
  let '(n2, v2, t2) := b in
  match String.compare n1 n2 with
  | Lt => true
  | Gt => false
  | Eq => if Num.eqb v1 v2 then (t1 <? t2)%Z else Num.ltb v1 v2
  end.

(** The order [sorted] keeps two neighbours in: the second is not less than
    the first. *)
Definition sample_le (a b : sample) : Prop := sample_ltb b a = false.

#[global] Instance sample_le_dec : RelDecision sample_le :=
  fun a b => decide (sample_ltb b a = false).

(** [sorted(...)]: a stable merge sort, as [list.sort]. *)
Definition sorted (l : list sample) : list sample := merge_sort sample_le l.

(** The dictionary [items] of a timer, as the list of its entries. *)
Definition timer_items (lightweight : bool) (percent : Z) (s : timer_stats)
  : list (string * Num.float) :=
  [(".mean", ts_mean s);
   (".upper", ts_upper s);
   (".upper_" ++ Str.of_Z percent, ts_threshold_upper s);
   (".lower", ts_lower s)]
  ++ (if lightweight then [] else [(".count", Num.of_Z (ts_count s))]).

(** One round of the loop of [flush_timer_metrics]: nothing for a key
    without samples. *)
Definition flush_timer (percent timestamp : Z)
           (entry : string * list Num.float) : M (list (list sample)) :=
  let '(key, timers) := entry in
  if (0 <? length timers)%nat then
    modify (fun st =>
      set_timer_metrics (<[key := []]> (timer_metrics st)) st) ;;;
    let* stats := compute_timer_stats percent timers in
    let* st := get in
    let items := timer_items (lightweight_mode (conf st)) percent stats in
    ret [sorted (map (fun '(item, value) =>
                        (timer_prefix (conf st) ++ key ++ item, value,
                         timestamp))
                     items)]
  else ret [].

Definition flush_timer_metrics (percent timestamp : Z)
  : M (list (list sample)) :=
  let* st := get in
  let* out := for_each (map_to_list (timer_metrics st))
                       (flush_timer percent timestamp) in
  ret (concat out).

Definition flush_gauge_metrics (timestamp : Z) : M (list (list sample)) :=
  let* st := get in
  ret (map (fun '(key, value) =>
              [(gauge_prefix (conf st) ++ key ++ ".value", value, timestamp)])
           (map_to_list (gauge_metrics st))).

Definition flush_meter_metrics (timestamp : Z) : M (list (list sample)) :=
  let* st := get in
  let reports := meter_report timestamp <$> meter_metrics st in
  modify (set_meter_metrics (fst <$> reports)) ;;;
  ret (map (fun '(_, report) => snd report) (map_to_list reports)).

Definition flush_plugin_metrics (interval timestamp : Z)
  : M (list (list sample)) :=
  let* st := get in
  let reports := plugin_flush interval timestamp <$> plugin_metrics st in
  modify (set_plugin_metrics (fst <$> reports)) ;;;
  ret (map (fun '(_, report) => snd report) (map_to_list reports)).

(** One round of the first loop of [flush_metrics_summary]. *)
Definition flush_summary_category (timestamp : Z)
           (entry : string * (Z * Num.float)) : M (list sample) :=
  let '(name, (value, duration)) := entry in
  let* st := get in
  modify (fun st => set_log (log st ++ [Flushed value name duration]) st) ;;;
  modify (fun st =>
    set_last_flush_duration (Num.add (last_flush_duration st) duration) st) ;;;
  ret [(internal_metrics_prefix (conf st) ++ "flush." ++ name ++ ".count",
        Num.of_Z value, timestamp);
       (internal_metrics_prefix (conf st) ++ "flush." ++ name ++ ".duration",
        Num.mul duration (Num.of_Z 1000), timestamp)].

(** One round of its second loop. *)
Definition flush_summary_type (timestamp : Z) (entry : string * Num.float)
  : M (list sample) :=
  let '(metric_type, duration) := entry in
  let* st := get in
  match by_type st !! metric_type with
  | None => raise KeyError
  | Some count =>
      modify (fun st =>
        set_log (log st ++ [Processing count metric_type duration]) st) ;;;
      modify (fun st =>
        set_last_process_duration
          (Num.add (last_process_duration st) duration) st) ;;;
      ret [(internal_metrics_prefix (conf st) ++ "receive." ++ metric_type
              ++ ".count", Num.of_Z count, timestamp);
           (internal_metrics_prefix (conf st) ++ "receive." ++ metric_type
              ++ ".duration", Num.mul duration (Num.of_Z 1000), timestamp)]
  end.

Definition flush_metrics_summary (num_stats : Z)
           (per_metric : gmap string (Z * Num.float)) (timestamp : Z)
  : M (list (list sample)) :=
  let* st := get in
  let first : list sample :=
    [(internal_metrics_prefix (conf st) ++ "numStats", Num.of_Z num_stats,
      timestamp)] in
  modify (set_last_flush_duration (Num.Finite 0)) ;;;
  let* categories := for_each (map_to_list per_metric)
                              (flush_summary_category timestamp) in
  modify (set_last_process_duration (Num.Finite 0)) ;;;
  let* st := get in
  let* types := for_each (map_to_list (process_timings st))
                         (flush_summary_type timestamp) in
  modify (set_process_timings ∅) ;;;
  modify (set_by_type ∅) ;;;
  ret (first :: categories ++ types)%list.

(** The block [flush] repeats for each kind of metric: read the clock, drain
    the generator, count its groups, read the clock again. *)
Definition flush_category (metrics : M (list (list sample)))
  : M (list sample * (Z * Num.float)) :=
  let* start := call_time_function in
  let* groups := metrics in
  let events := Z.of_nat (length groups) in
  let* now := call_time_function in
  let duration := Num.sub (Num.Finite now) (Num.Finite start) in
  ret (concat groups, (events, duration)).

(** [MessageProcessor.flush], drained: the samples in the order they are
    yielded.  The samples yielded before an exception are not kept. *)
Definition flush (interval percent : Z) : M (list sample) :=
  let interval := (interval / 1000)%Z in
  let* now := call_time_function in
  let timestamp := Num.int now in
  let* (counters, counter) :=
    flush_category (flush_counter_metrics interval timestamp) in
  let* (timers, timer) :=
    flush_category (flush_timer_metrics percent timestamp) in
  let* (gauges, gauge) :=
    flush_category (flush_gauge_metrics timestamp) in
  let* (meters, meter) :=
    flush_category (flush_meter_metrics timestamp) in
  let* (plugins, plugin) :=
    flush_category (flush_plugin_metrics interval timestamp) in
  let num_stats := (fst counter + fst timer + fst gauge + fst meter
                    + fst plugin)%Z in
  let per_metric : gmap string (Z * Num.float) :=
    <["plugin" := plugin]> (<["meter" := meter]> (<["gauge" := gauge]>
      (<["timer" := timer]> (<["counter" := counter]> ∅)))) in
  let* summary := flush_metrics_summary num_stats per_metric timestamp in
  ret (counters ++ timers ++ gauges ++ meters ++ plugins ++ concat summary)%list.

End Methods.

(** ** Auxiliary definitions for the statements *)

Section Statements.

Context `{Reporters}.

(** The state after the last four lines of [process_message], entered with
    the clock reading [start]. *)
Definition self_metrics (metric_type : string) (start : Q) (st : processor)
  : processor :=
  let now := time_function (conf st) (clock st) in
  set_by_type (setdefault_add 0%Z Z.add metric_type 1%Z (by_type st))
    (set_process_timings
       (setdefault_add (Num.Finite 0) Num.add metric_type
                       (Num.sub (Num.Finite now) (Num.Finite start))
                       (process_timings st))
       (set_clock (S (clock st)) st)).

(** What [process_message] does around a handler [h] that it knows: it reads
    the clock, runs the handler and, when the handler returns, records the
    self-metrics. *)
Definition around (h : M unit) (metric_type : string) (st : processor)
  : outcome unit :=
  match h (set_clock (S (clock st)) st) with
  | Ok _ st1 =>
      Ok tt (self_metrics metric_type (time_function (conf st) (clock st)) st1)
  | Raise e st1 => Raise e st1
  end.

(** The state after the first two lines of [compose_counter_metric]. *)
Definition ensure_counter (key : string) (st : processor) : processor :=
  match counter_metrics st !! key with
  | None =>
      set_counter_metrics (<[key := Num.Finite 0]> (counter_metrics st)) st
  | Some _ => st
  end.

(** The fields of a counter message whose value parses as [v], with the
    rate [r]: [1] without a third field, and with one what [RATE] captures
    in it. *)
Inductive counter_fields : list string -> Num.float -> Num.float -> Prop :=
| counter_plain value t v :
    Num.float_of_string value = Num.Parsed v ->
    counter_fields [value; t] v (Num.of_Z 1)
| counter_rated value t third group v r :
    Num.float_of_string value = Num.Parsed v ->
    RATE_match third = Some group ->
    Num.float_of_string group = Num.Parsed r ->
    counter_fields [value; t; third] v r.

(** A message with two or three fields after its key, the second being
    [metric_type]. *)
Definition well_shaped (message key : string) (fields : list string)
           (metric_type : string) : Prop :=
  exists data,
    Str.contains ":" message = true
    /\ Str.split1 ":" (Str.strip message) = (key, Some data)
    /\ Str.contains "|" data = true
    /\ Str.split "|" data = fields
    /\ ((length fields <? 2)%nat || (3 <? length fields)%nat)%bool = false
    /\ fields !! 1%nat = Some metric_type.

(** The malformed messages that are rejected before any handler runs: no
    colon, no pipe after the colon, fewer than two or more than three
    fields, or a type token that is neither built in nor a plugin's. *)
Inductive malformed_shape (st : processor) (message : string) : Prop :=
| bad_separator_colon :
    Str.contains ":" message = false -> malformed_shape st message
| bad_separator_pipe key data :
    Str.contains ":" message = true ->
    Str.split1 ":" (Str.strip message) = (key, Some data) ->
    Str.contains "|" data = false -> malformed_shape st message
| bad_field_count key data :
    Str.contains ":" message = true ->
    Str.split1 ":" (Str.strip message) = (key, Some data) ->
    Str.contains "|" data = true ->
    ((length (Str.split "|" data) <? 2)%nat
     || (3 <? length (Str.split "|" data))%nat)%bool = true ->
    malformed_shape st message
| unknown_type key fields metric_type :
    well_shaped message key fields metric_type ->
    metric_type <> "c" -> metric_type <> "ms" -> metric_type <> "g" ->
    metric_type <> "m" -> plugins (conf st) !! metric_type = None ->
    malformed_shape st message.

(** A call that, when it returns, has left the counters and the settings as
    they were. *)
Definition keeps_counters {A} (m : M A) : Prop :=
  forall st a st',
    m st = Ok a st' ->
    counter_metrics st' = counter_metrics st /\ conf st' = conf st.

(** The counter map after the loop of [flush_counter_metrics] over the
    entries [l]. *)
Definition zeroed (l : list (string * Num.float))
           (m : gmap string Num.float) : gmap string Num.float :=
  foldl (fun m entry => <[fst entry := Num.Finite 0]> m) m l.

(** The groups the loop of [flush_counter_metrics] yields. *)
Definition counter_groups (c : settings) (interval timestamp : Z)
           (l : list (string * Num.float)) : list (list sample) :=
  map (fun entry =>
         counter_output c (fst entry) (snd entry)
                        (Num.div (snd entry) (Num.of_Z interval)) timestamp)
      l.

(** Two states with the same five accumulator maps. *)
Definition same_accumulators (st st' : processor) : Prop :=
  timer_metrics st' = timer_metrics st
  /\ counter_metrics st' = counter_metrics st
  /\ gauge_metrics st' = gauge_metrics st
  /\ meter_metrics st' = meter_metrics st
  /\ plugin_metrics st' = plugin_metrics st.

(** Two states with the same self-metrics. *)
Definition same_self_metrics (st st' : processor) : Prop :=
  by_type st' = by_type st /\ process_timings st' = process_timings st.

(** A processor built by [__init__] in the legacy namespace. *)
Definition legacy (st : processor) : Prop :=
  legacy_namespace (conf st) = true
  /\ stats_prefix (conf st) = "stats."
  /\ count_prefix (conf st) = "stats_counts."
  /\ timer_prefix (conf st) = "stats.timers."
  /\ gauge_prefix (conf st) = "stats.gauge."
  /\ internal_metrics_prefix (conf st) = "statsd.".



(** [MessageProcessor(time_function=lambda: 1000)], with the options given. *)
Definition processor_at_1000 (legacy_namespace delete_idle_counters
                              lightweight_mode : bool) : processor :=
  MessageProcessor (fun _ => 1000%Q) [] legacy_namespace "stats" "statsd."
                   delete_idle_counters lightweight_mode.

(** [n] zeros. *)
Fixpoint zeros (n : nat) : string :=
  match n with
  | O => ""
  | S n => String "0" (zeros n)
  end.

(** A rate that is not zero and that [float()] rounds to [0.0]: [0.],
    330 zeros and a [1]. *)
Definition tiny_rate : string := "0." ++ zeros 330 ++ "1".

(** The sample of a flush that carries a given name and timestamp. *)
Definition is_line (name : string) (timestamp : Z) (s : sample) : bool :=
  (String.eqb (fst (fst s)) name && (snd s =? timestamp)%Z)%bool.

End Statements.

(** A processor to run examples on: without plugins, and with meters that
    keep their name only and report nothing. *)
#[global] Instance standalone : Reporters := {|
  meter := string;
  MeterMetricReporter := fun key => key;
  meter_mark := fun _ m => m;
  meter_report := fun _ m => (m, []);
  plugin_metric := Empty_set;
  plugin_process := fun _ m => m;
  plugin_flush := fun _ _ m => (m, [])
|}.

(** ** The specification's words, as definitions *)

(** Key normalization as the specification words it, in one pass over the
    key: a run of white space gives one underscore, a run of slashes one
    hyphen, and a byte outside [A-Za-z0-9._-] is deleted.  [prev] is the
    byte before the current one. *)
Fixpoint normalize_by_runs (prev : option ascii) (s : string) : string :=
  match s with
  | EmptyString => EmptyString
  | String c r =>
      let continues (cls : ascii -> bool) :=
        match prev with Some p => cls p | None => false end in
      let here :=
        if Chars.is_space c then
          (if continues Chars.is_space then "" else "_")
        else if Chars.is_slash c then
          (if continues Chars.is_slash then "" else "-")
        else if Chars.is_key_char c then String c ""
        else "" in
      here ++ normalize_by_runs (Some c) r
  end.





(** The eight messages of the end-to-end scenario of the timers. *)
Definition orders_messages : list string :=
  ["orders:250|ms"; "orders:250|ms"; "orders:250|ms"; "orders:250|ms";
   "orders:750|ms"; "orders:750|ms"; "orders:750|ms"; "orders:750|ms"].

(** C3 as the specification states it, for the rate line: in the legacy
    namespace a flush with an interval of [I] milliseconds emits
    [stats.<key>] with the total divided by the interval in seconds,
    [I / 1000]. *)
Definition counter_rate_claim_as_stated : Prop :=
  forall (st : processor) key total interval percent out st',
    legacy st -> counter_metrics st !! key = Some total ->
    flush interval percent st = Ok out st' ->
    In ("stats." ++ key,
        Num.div total (Num.fl (inject_Z interval / 1000)),
        Num.int (time_function (conf st) (clock st))) out.

(** C6 as the specification states it, for a counter whose value does not
    parse: processing leaves the self-metrics as they were. *)
Definition unparsable_counter_claim_as_stated : Prop :=
  forall message key value rest (st st' : processor),
    well_shaped message key (value :: rest) "c" ->
    Num.float_of_string value = Num.Invalid ->
    process message st = Ok tt st' ->
    same_self_metrics st st'.

(** ** The rest of the processor *)

Section Rest.

Context `{Reporters}.

(** ["|".join(fields)], for any one-byte separator. *)
Fixpoint join (sep : ascii) (fields : list string) : string :=
  match fields with
  | [] => ""
  | [f] => f
  | f :: rest => f ++ String sep (join sep rest)
  end.

(** [BaseMessageProcessor.rebuild_message] *)
Definition rebuild_message (metric_type key : string) (fields : list string)
  : string :=
  key ++ ":" ++ join "|" fields.

(** The set [metrics] of [get_metric_names], after its five updates. *)
Definition metric_names (st : processor) : gset string :=
  dom (timer_metrics st) ∪ dom (counter_metrics st)
  ∪ dom (gauge_metrics st) ∪ dom (meter_metrics st)
  ∪ dom (plugin_metrics st).

(** [MessageProcessor.get_metric_names]: the names of all seen metrics, in
    the order of the set. *)
Definition get_metric_names (st : processor) : list string :=
  elements (metric_names st).

(** The state after one call of [time_function]. *)
Definition tick (st : processor) : processor := set_clock (S (clock st)) st.

(** A call that leaves a part [f] of the state as it was, whether it returns
    or raises. *)
Definition unchanged {A B} (f : processor -> B) (m : M A) : Prop :=
  forall st,
    match m st with
    | Ok _ st' => f st' = f st
    | Raise _ st' => f st' = f st
    end.

(** A call that keeps a property of the state, whether it returns or
    raises. *)
Definition maintains {A} (I : processor -> Prop) (m : M A) : Prop :=
  forall st,
    I st ->
    match m st with
    | Ok _ st' => I st'
    | Raise _ st' => I st'
    end.

(** A call that returns from every state. *)
Definition returns {A} (m : M A) : Prop :=
  forall st, exists a st', m st = Ok a st'.

(** The timer map after the loop of [flush_timer_metrics] over the entries
    [l]. *)
Definition emptied (l : list (string * list Num.float))
           (m : gmap string (list Num.float)) : gmap string (list Num.float) :=
  foldl (fun m entry =>
           if (0 <? length (snd entry))%nat then <[fst entry := []]> m
           else m) m l.

(** [by_type] has an entry for every key of [process_timings], and the
    other way round. *)
Definition self_metrics_agree (st : processor) : Prop :=
  forall metric_type,
    is_Some (process_timings st !! metric_type)
    <-> is_Some (by_type st !! metric_type).

(** Every key of the five accumulator maps is made of bytes of
    [A-Za-z0-9._-]. *)
Definition keys_normalized (st : processor) : Prop :=
  forall key, key ∈ metric_names st -> Str.all Chars.is_key_char key = true.

(** A call that adds at most the name [key] to the metric names, whether it
    returns or raises. *)
Definition adds_at_most {A} (key : string) (m : M A) : Prop :=
  forall st,
    match m st with
    | Ok _ st' => metric_names st' ⊆ {[key]} ∪ metric_names st
    | Raise _ st' => metric_names st' ⊆ {[key]} ∪ metric_names st
    end.

(** The state a sequence of messages leaves, each given to [process]. *)
Definition after_messages (messages : list string) (st : processor)
  : processor :=
  match for_each messages process st with
  | Ok _ st' => st'
  | Raise _ st' => st'
  end.

(** A processor that received a counter, two samples of a timer and a
    gauge. *)
Definition busy_processor : processor :=
  after_messages ["a:10|c"; "orders:250|ms"; "orders:750|ms"; "load:3|g"]
                 (processor_at_1000 true false false).


End Rest.
(** * Properties *)

(** ** Key normalization *)

Lemma key_char_not_space c :
  Chars.is_key_char c = true -> Chars.is_space c = false.
Proof.
  destruct c as [[] [] [] [] [] [] [] []]; vm_compute; congruence.
Qed.

Lemma key_char_not_slash c :
  Chars.is_key_char c = true -> Chars.is_slash c = false.
Proof.
  destruct c as [[] [] [] [] [] [] [] []]; vm_compute; congruence.
Qed.

Lemma space_not_slash c :
  Chars.is_space c = true -> Chars.is_slash c = false.
Proof.
  destruct c as [[] [] [] [] [] [] [] []]; vm_compute; congruence.
Qed.

Lemma append_byte c s : String c "" ++ s = String c s.
Proof. reflexivity. Qed.

Lemma append_empty s : "" ++ s = s.
Proof. reflexivity. Qed.

(** The three substitutions of [normalize_key] together are the one pass of
    [normalize_by_runs], whatever byte came before. *)
Lemma three_passes_one_pass s : forall prev,
  let in_spaces := match prev with Some p => Chars.is_space p | None => false end in
  let in_slashes := match prev with Some p => Chars.is_slash p | None => false end in
  Str.remove (fun c => negb (Chars.is_key_char c))
    (Str.sub_runs Chars.is_slash "-" in_slashes
       (Str.sub_runs Chars.is_space "_" in_spaces s))
  = normalize_by_runs prev s.
Proof.
  induction s as [|c r IH]; intros prev; [reflexivity|].
  pose proof (IH (Some c)) as IHc. cbn beta iota zeta in IHc.
  cbn zeta. cbn [Str.sub_runs normalize_by_runs].
  destruct (Chars.is_space c) eqn:Hsp.
  - rewrite (space_not_slash c Hsp) in IHc.
    destruct prev as [p|]; [destruct (Chars.is_space p) eqn:Hp|].
    + rewrite (space_not_slash p Hp), append_empty. exact IHc.
    + rewrite !append_byte. cbn [Str.sub_runs].
      change (Chars.is_slash "_"%char) with false. cbn [Str.remove].
      change (Chars.is_key_char "_"%char) with true. cbn [negb].
      destruct (Chars.is_slash p); rewrite IHc; reflexivity.
    + rewrite !append_byte. cbn [Str.sub_runs].
      change (Chars.is_slash "_"%char) with false. cbn [Str.remove].
      change (Chars.is_key_char "_"%char) with true. cbn [negb].
      rewrite IHc; reflexivity.
  - cbn [Str.sub_runs]. destruct (Chars.is_slash c) eqn:Hsl.
    + assert (Hdash : forall t,
        Str.remove (fun c => negb (Chars.is_key_char c)) ("-" ++ t)
        = String "-" (Str.remove (fun c => negb (Chars.is_key_char c)) t))
        by reflexivity.
      destruct prev as [p|]; [destruct (Chars.is_slash p)|];
        rewrite ?Hdash, ?append_byte, ?append_empty, IHc; reflexivity.
    + cbn [Str.remove].
      destruct (Chars.is_key_char c); cbn [negb];
        rewrite ?append_byte, ?append_empty, IHc; reflexivity.
Qed.

Lemma sub_runs_none cls repl s : forall b,
  Str.all (fun c => negb (cls c)) s = true ->
  Str.sub_runs cls repl b s = s.
Proof.
  induction s as [|c r IH]; intros b Hall; [reflexivity|].
  cbn in Hall |- *. apply andb_prop in Hall as [Hc Hr].
  destruct (cls c); [discriminate|]. f_equal. apply IH, Hr.
Qed.

Lemma remove_none cls s :
  Str.all (fun c => negb (cls c)) s = true -> Str.remove cls s = s.
Proof.
  induction s as [|c r IH]; intros Hall; [reflexivity|].
  cbn in Hall |- *. apply andb_prop in Hall as [Hc Hr].
  destruct (cls c); [discriminate|]. f_equal. apply IH, Hr.
Qed.

Lemma remove_all cls s :
  Str.all (fun c => negb (cls c)) (Str.remove cls s) = true.
Proof.
  induction s as [|c r IH]; [reflexivity|].
  cbn. destruct (cls c) eqn:Hc; [exact IH|]. cbn. rewrite Hc. exact IH.
Qed.

Lemma all_weaken (p q : ascii -> bool) s :
  (forall c, p c = true -> q c = true) ->
  Str.all p s = true -> Str.all q s = true.
Proof.
  intros Hpq. induction s as [|c r IH]; [reflexivity|].
  cbn. intros Hall. apply andb_prop in Hall as [Hc Hr].
  rewrite (Hpq c Hc). cbn. apply IH, Hr.
Qed.

(** A normalized key consists of bytes of [A-Za-z0-9._-] only. *)
Lemma normalize_key_chars k :
  Str.all Chars.is_key_char (normalize_key k) = true.
Proof.
  unfold normalize_key.
  eapply all_weaken; [|apply remove_all].
  intros c Hc. cbn in Hc. destruct (Chars.is_key_char c); [reflexivity|discriminate].
Qed.

(** A key of such bytes is left as it is. *)
Lemma normalize_key_fixed k :
  Str.all Chars.is_key_char k = true -> normalize_key k = k.
Proof.
  intros Hk. unfold normalize_key.
  rewrite (sub_runs_none Chars.is_space).
  2:{ eapply all_weaken; [|exact Hk]. intros c Hc.
      rewrite (key_char_not_space c Hc). reflexivity. }
  rewrite (sub_runs_none Chars.is_slash).
  2:{ eapply all_weaken; [|exact Hk]. intros c Hc.
      rewrite (key_char_not_slash c Hc). reflexivity. }
  apply remove_none. eapply all_weaken; [|exact Hk].
  intros c Hc. rewrite Hc. reflexivity.
Qed.

(** C8: [normalize_key] replaces every run of white space by one underscore
    and every run of slashes by one hyphen and deletes every byte outside
    [A-Za-z0-9._-]: it is the one-pass [normalize_by_runs]; it maps
    ["a b/c!d"] to ["a_b-cd"]; and it is idempotent. *)
Theorem normalize_key_runs_idempotent :
  (forall k, normalize_key k = normalize_by_runs None k)
  /\ normalize_key "a b/c!d" = "a_b-cd"
  /\ (forall k, normalize_key (normalize_key k) = normalize_key k).
Proof.
  split; [|split].
  - intros k. exact (three_passes_one_pass k None).
  - reflexivity.
  - intros k. apply normalize_key_fixed, normalize_key_chars.
Qed.

(** ** Ingest *)

Section Ingest.

Context `{Reporters}.

Local Open Scope proc_scope.

(** A message with a colon, a pipe after it and two or three fields goes to
    [process_message] with its normalized key. *)
Lemma process_routes message key data fields metric_type st :
  Str.contains ":" message = true ->
  Str.split1 ":" (Str.strip message) = (key, Some data) ->
  Str.contains "|" data = true ->
  Str.split "|" data = fields ->
  ((length fields <? 2)%nat || (3 <? length fields)%nat)%bool = false ->
  fields !! 1%nat = Some metric_type ->
  process message st
  = process_message message metric_type (normalize_key key) fields st.
Proof.
  intros Hc Hs Hp Hf Hl Ht. unfold process.
  rewrite Hc, Hs, Hp, Hf, Hl. cbn [negb].
  unfold bind, item. rewrite Ht. reflexivity.
Qed.

Lemma process_no_colon message st :
  Str.contains ":" message = false ->
  process message st = fail message st.
Proof. intros Hc. unfold process. rewrite Hc. reflexivity. Qed.

Lemma process_no_pipe message key data st :
  Str.contains ":" message = true ->
  Str.split1 ":" (Str.strip message) = (key, Some data) ->
  Str.contains "|" data = false ->
  process message st = fail message st.
Proof. intros Hc Hs Hp. unfold process. rewrite Hc, Hs, Hp. reflexivity. Qed.

Lemma process_field_count message key data st :
  Str.contains ":" message = true ->
  Str.split1 ":" (Str.strip message) = (key, Some data) ->
  Str.contains "|" data = true ->
  ((length (Str.split "|" data) <? 2)%nat
   || (3 <? length (Str.split "|" data))%nat)%bool = true ->
  process message st = fail message st.
Proof.
  intros Hc Hs Hp Hl. unfold process. rewrite Hc, Hs, Hp, Hl. reflexivity.
Qed.

Lemma process_message_counter message key fields st :
  process_message message "c" key fields st
  = around (process_counter_metric key fields message) "c" st.
Proof.
  unfold process_message, around, bind, call_time_function, get, ret, modify.
  cbn. destruct (process_counter_metric key fields message _); reflexivity.
Qed.

Lemma process_message_timer message key first rest st :
  process_message message "ms" key (first :: rest) st
  = around (process_timer_metric key first message) "ms" st.
Proof.
  unfold process_message, around, bind, call_time_function, get, ret, modify.
  cbn. destruct (process_timer_metric key first message _); reflexivity.
Qed.

Lemma process_message_gauge message key first rest st :
  process_message message "g" key (first :: rest) st
  = around (process_gauge_metric key first message) "g" st.
Proof.
  unfold process_message, around, bind, call_time_function, get, ret, modify.
  cbn. destruct (process_gauge_metric key first message _); reflexivity.
Qed.

Lemma process_message_meter message key first rest st :
  process_message message "m" key (first :: rest) st
  = around (process_meter_metric key first message) "m" st.
Proof.
  unfold process_message, around, bind, call_time_function, get, ret, modify.
  cbn. destruct (process_meter_metric key first message _); reflexivity.
Qed.

(** A type token that is none of [c], [ms], [g], [m] and that no plugin
    declares: the message is logged and nothing else happens but the one
    clock reading. *)
Lemma process_message_unknown message metric_type key fields st :
  metric_type <> "c" -> metric_type <> "ms" -> metric_type <> "g" ->
  metric_type <> "m" -> plugins (conf st) !! metric_type = None ->
  process_message message metric_type key fields st
  = Ok tt (set_log (log st ++ [BadLine message])
                   (set_clock (S (clock st)) st)).
Proof.
  intros Hc Hms Hg Hm Hp.
  unfold process_message, bind, call_time_function, get.
  apply String.eqb_neq in Hc, Hms, Hg, Hm. rewrite Hc, Hms, Hg, Hm.
  cbn. rewrite Hp. rewrite bool_decide_eq_false_2 by (intros [? ?]; discriminate).
  reflexivity.
Qed.

Lemma process_well_shaped message key fields metric_type st :
  well_shaped message key fields metric_type ->
  process message st
  = process_message message metric_type (normalize_key key) fields st.
Proof.
  intros (data & Hc & Hs & Hp & Hf & Hl & Ht).
  eapply process_routes; eassumption.
Qed.

(** The handlers of counters. *)

Lemma float_of_rate_int n st :
  float_of_rate (RateInt n) st = Ok (Num.of_Z n) st.
Proof. reflexivity. Qed.

Lemma float_of_rate_str s r st :
  Num.float_of_string s = Num.Parsed r ->
  float_of_rate (RateStr s) st = Ok r st.
Proof. intros Hs. unfold float_of_rate. rewrite Hs. reflexivity. Qed.

Lemma ensure_counter_lookup key st :
  default (Num.Finite 0) (counter_metrics (ensure_counter key st) !! key)
  = default (Num.Finite 0) (counter_metrics st !! key).
Proof.
  unfold ensure_counter. destruct (counter_metrics st !! key) eqn:Hk.
  - rewrite Hk. reflexivity.
  - cbn. rewrite lookup_insert_eq. reflexivity.
Qed.

Lemma ensure_counter_insert key (x : Num.float) st :
  set_counter_metrics (<[key := x]> (counter_metrics (ensure_counter key st)))
                      (ensure_counter key st)
  = set_counter_metrics (<[key := x]> (counter_metrics st)) st.
Proof.
  unfold ensure_counter. destruct (counter_metrics st !! key); [reflexivity|].
  unfold set_counter_metrics. cbn. rewrite insert_insert_eq. reflexivity.
Qed.

(** [compose_counter_metric] with a rate that converts to [r]: the sum when
    [r] is not zero, [ZeroDivisionError] when it is, the entry being there
    already. *)
Lemma compose_counter_metric_run key v rate r st :
  (forall st, float_of_rate rate st = Ok r st) ->
  compose_counter_metric key v rate st
  = if Num.is_zero r then Raise ZeroDivisionError (ensure_counter key st)
    else Ok tt (set_counter_metrics
                  (<[key := Num.add
                             (default (Num.Finite 0)
                                      (counter_metrics st !! key))
                             (Num.mul v (Num.div (Num.of_Z 1) r))]>
                     (counter_metrics st)) st).
Proof.
  intros Hr. unfold compose_counter_metric, bind, get.
  assert (Hfirst :
    match counter_metrics st !! key with
    | Some _ => ret ()
    | None =>
        modify (set_counter_metrics
                  (<[key := Num.Finite 0]> (counter_metrics st)))
    end st = Ok tt (ensure_counter key st)).
  { unfold ensure_counter. destruct (counter_metrics st !! key); reflexivity. }
  rewrite Hfirst, Hr.
  destruct (Num.is_zero r); [reflexivity|].
  unfold modify. rewrite ensure_counter_lookup, ensure_counter_insert.
  reflexivity.
Qed.

Lemma process_counter_metric_fields key fields v r message st :
  counter_fields fields v r ->
  process_counter_metric key fields message st
  = if Num.is_zero r then Raise ZeroDivisionError (ensure_counter key st)
    else Ok tt (set_counter_metrics
                  (<[key := Num.add
                             (default (Num.Finite 0)
                                      (counter_metrics st !! key))
                             (Num.mul v (Num.div (Num.of_Z 1) r))]>
                     (counter_metrics st)) st).
Proof.
  intros Hf. destruct Hf as [value t v Hv | value t third group v r Hv Hm Hg];
    unfold process_counter_metric, bind, item; cbn; rewrite Hv; cbn.
  - apply (compose_counter_metric_run key v (RateInt 1) (Num.of_Z 1)).
    intros; reflexivity.
  - rewrite Hm. apply compose_counter_metric_run.
    intros; apply float_of_rate_str, Hg.
Qed.

Lemma process_counter_metric_invalid key value rest message st :
  Num.float_of_string value = Num.Invalid ->
  process_counter_metric key (value :: rest) message st = fail message st.
Proof.
  intros Hv. unfold process_counter_metric, bind, item. cbn.
  rewrite Hv. reflexivity.
Qed.

Lemma process_timer_metric_invalid key value message st :
  Num.float_of_string value = Num.Invalid ->
  process_timer_metric key value message st = fail message st.
Proof. intros Hv. unfold process_timer_metric. rewrite Hv. reflexivity. Qed.

Lemma process_timer_metric_parsed key value d message st :
  Num.float_of_string value = Num.Parsed d ->
  process_timer_metric key value message st
  = Ok tt (set_timer_metrics
             (<[key := (default [] (timer_metrics st !! key) ++ [d])%list]>
                (timer_metrics st)) st).
Proof. intros Hv. unfold process_timer_metric. rewrite Hv. reflexivity. Qed.

(** A gauge or a meter with one value that does not parse: the message is
    logged, and then the handler raises. *)
Lemma process_gauge_metric_invalid key value message st :
  Str.split ":" value = [value] ->
  Num.float_of_string value = Num.Invalid ->
  process_gauge_metric key value message st
  = Raise UnboundLocalError (set_log (log st ++ [BadLine message]) st).
Proof.
  intros Hs Hv. unfold process_gauge_metric. rewrite Hs, Hv. reflexivity.
Qed.

Lemma process_meter_metric_invalid key value message st :
  Str.split ":" value = [value] ->
  Num.float_of_string value = Num.Invalid ->
  process_meter_metric key value message st
  = Raise UnboundLocalError (set_log (log st ++ [BadLine message]) st).
Proof.
  intros Hs Hv. unfold process_meter_metric. rewrite Hs, Hv. reflexivity.
Qed.

Lemma fail_run message st :
  fail message st = Ok tt (set_log (log st ++ [BadLine message]) st).
Proof. reflexivity. Qed.

(** A message rejected for its shape leaves everything but the log, and for
    an unknown type the clock, as it was. *)
Lemma malformed_shape_rejected message st :
  malformed_shape st message ->
  exists st',
    process message st = Ok tt st'
    /\ log st' = (log st ++ [BadLine message])%list
    /\ same_self_metrics st st'
    /\ same_accumulators st st'.
Proof.
  intros [Hc | key data Hc Hs Hp | key data Hc Hs Hp Hl
          | key fields t Hw Hnc Hnms Hng Hnm Hpl].
  - rewrite process_no_colon by assumption. eexists. split; [reflexivity|].
    repeat split.
  - rewrite (process_no_pipe _ key data) by assumption.
    eexists. split; [reflexivity|]. repeat split.
  - rewrite (process_field_count _ key data) by assumption.
    eexists. split; [reflexivity|]. repeat split.
  - rewrite (process_well_shaped _ key fields t) by assumption.
    rewrite process_message_unknown by assumption.
    eexists. split; [reflexivity|]. repeat split.
Qed.

(** A counter or a timer whose value does not parse is logged and dropped by
    its handler, and counted by [process_message]. *)
Lemma unparsable_counted message key value rest metric_type st :
  well_shaped message key (value :: rest) metric_type ->
  metric_type = "c" \/ metric_type = "ms" ->
  Num.float_of_string value = Num.Invalid ->
  exists st',
    process message st = Ok tt st'
    /\ log st' = (log st ++ [BadLine message])%list
    /\ same_accumulators st st'
    /\ by_type st'
       = <[metric_type := (default 0 (by_type st !! metric_type) + 1)%Z]>
           (by_type st)
    /\ process_timings st'
       = <[metric_type :=
             Num.add
               (default (Num.Finite 0) (process_timings st !! metric_type))
               (Num.sub (Num.Finite (time_function (conf st) (S (clock st))))
                        (Num.Finite (time_function (conf st) (clock st))))]>
           (process_timings st).
Proof.
  intros Hw Ht Hv. rewrite (process_well_shaped _ _ _ _ _ Hw).
  destruct Ht as [-> | ->].
  - rewrite process_message_counter. unfold around.
    rewrite process_counter_metric_invalid, fail_run by assumption.
    eexists. split; [reflexivity|]. repeat split.
  - rewrite process_message_timer. unfold around.
    rewrite process_timer_metric_invalid, fail_run by assumption.
    eexists. split; [reflexivity|]. repeat split.
Qed.

(** C6, as the code has it: a message with a bad separator, a bad field
    count or an unknown type token is logged and dropped without any
    self-metric increment, [by_type] and [process_timings] staying as they
    were; a counter or timer message whose value does not parse is logged
    and dropped too, but counted: [by_type] of its type token grows by one
    and [process_timings] by the time elapsed. *)
Theorem malformed_self_metrics :
  (forall message st,
     malformed_shape st message ->
     exists st',
       process message st = Ok tt st'
       /\ log st' = (log st ++ [BadLine message])%list
       /\ by_type st' = by_type st
       /\ process_timings st' = process_timings st)
  /\ (forall message key value rest metric_type st,
        well_shaped message key (value :: rest) metric_type ->
        metric_type = "c" \/ metric_type = "ms" ->
        Num.float_of_string value = Num.Invalid ->
        exists st',
          process message st = Ok tt st'
          /\ log st' = (log st ++ [BadLine message])%list
          /\ by_type st' !! metric_type
             = Some (default 0 (by_type st !! metric_type) + 1)%Z
          /\ process_timings st' !! metric_type
             = Some (Num.add
                       (default (Num.Finite 0)
                                (process_timings st !! metric_type))
                       (Num.sub
                          (Num.Finite (time_function (conf st) (S (clock st))))
                          (Num.Finite (time_function (conf st) (clock st)))))).
Proof.
  split.
  - intros message st Hm.
    destruct (malformed_shape_rejected message st Hm)
      as (st' & Hp & Hl & [Hb Ht] & _).
    exists st'. auto.
  - intros message key value rest t st Hw Ht Hv.
    destruct (unparsable_counted message key value rest t st Hw Ht Hv)
      as (st' & Hp & Hl & _ & Hb & Hpt).
    exists st'. rewrite Hb, Hpt, !lookup_insert_eq. auto.
Qed.

(** C7: for the gauge message ["k:abc|g"] and the meter message ["k:abc|m"],
    whose value does not parse, the code logs the message and then raises
    [UnboundLocalError], where the claim has it drop the message without an
    exception; the accumulators are as they were. *)
Theorem unparsable_gauge_meter_raise st :
  process "k:abc|g" st
  = Raise UnboundLocalError
          (set_log (log st ++ [BadLine "k:abc|g"])
                   (set_clock (S (clock st)) st))
  /\ process "k:abc|m" st
     = Raise UnboundLocalError
             (set_log (log st ++ [BadLine "k:abc|m"])
                      (set_clock (S (clock st)) st)).
Proof.
  split.
  - rewrite (process_routes "k:abc|g" "k" "abc|g" ["abc"; "g"] "g")
      by reflexivity.
    rewrite process_message_gauge. unfold around.
    rewrite process_gauge_metric_invalid by reflexivity. reflexivity.
  - rewrite (process_routes "k:abc|m" "k" "abc|m" ["abc"; "m"] "m")
      by reflexivity.
    rewrite process_message_meter. unfold around.
    rewrite process_meter_metric_invalid by reflexivity. reflexivity.
Qed.

(** C10: ["k:1|c|@0"] passes the field count and [RATE], and
    [compose_counter_metric] then raises [ZeroDivisionError] without logging
    the message; for any counter fields with a rate, the handler returns if
    and only if the rate, as the double [float()] gives, is not zero, and
    raises [ZeroDivisionError], with nothing logged, when it is.  So does a
    rate written with a digit that is not zero but too small for a double,
    such as [0.], 330 zeros and a [1]. *)
Theorem zero_rate_raises :
  (RATE_match "@0" = Some "0"
   /\ Num.float_of_string "0" = Num.Parsed (Num.Finite 0)
   /\ forall st,
        process "k:1|c|@0" st
        = Raise ZeroDivisionError
                (ensure_counter "k" (set_clock (S (clock st)) st)))
  /\ (forall key fields v r message st,
        counter_fields fields v r ->
        (exists st', process_counter_metric key fields message st = Ok tt st')
        <-> Num.is_zero r = false)
  /\ (forall key fields v r message st,
        counter_fields fields v r ->
        Num.is_zero r = true ->
        process_counter_metric key fields message st
        = Raise ZeroDivisionError (ensure_counter key st)
        /\ log (ensure_counter key st) = log st)
  /\ (Num.float_of_string tiny_rate = Num.Parsed (Num.Finite 0)
      /\ forall st,
           process ("k:1|c|@" ++ tiny_rate) st
           = Raise ZeroDivisionError
                   (ensure_counter "k" (set_clock (S (clock st)) st))).
Proof.
  split; [|split; [|split]].
  - split; [reflexivity|]. split; [reflexivity|]. intros st.
    rewrite (process_routes "k:1|c|@0" "k" "1|c|@0" ["1"; "c"; "@0"] "c")
      by reflexivity.
    rewrite process_message_counter. unfold around.
    rewrite (process_counter_metric_fields _ _ (Num.Finite 1) (Num.Finite 0)).
    + reflexivity.
    + apply (counter_rated "1" "c" "@0" "0"); reflexivity.
  - intros key fields v r message st Hf.
    rewrite (process_counter_metric_fields _ _ _ _ _ _ Hf).
    destruct (Num.is_zero r); split.
    + intros [st' Hst']. discriminate.
    + discriminate.
    + reflexivity.
    + eauto.
  - intros key fields v r message st Hf Hz.
    rewrite (process_counter_metric_fields _ _ _ _ _ _ Hf), Hz.
    split; [reflexivity|].
    unfold ensure_counter. destruct (counter_metrics st !! key); reflexivity.
  - split; [vm_compute; reflexivity|]. intros st.
    rewrite (process_routes ("k:1|c|@" ++ tiny_rate) "k"
                            ("1|c|@" ++ tiny_rate)
                            ["1"; "c"; "@" ++ tiny_rate] "c")
      by (vm_compute; reflexivity).
    rewrite process_message_counter. unfold around.
    rewrite (process_counter_metric_fields _ _ (Num.Finite 1) (Num.Finite 0)).
    + reflexivity.
    + apply (counter_rated "1" "c" ("@" ++ tiny_rate) tiny_rate);
        vm_compute; reflexivity.
Qed.

(** C5: ["foo:1|c"] is accepted and adds [1] to the counter [foo];
    ["foo1|c"], ["foo:1"], ["foo:1|c|extra|more"] and ["foo:|c"] are logged
    and dropped, no accumulator map being modified. *)
Theorem parser_accepts_and_rejects st :
  (exists st',
     process "foo:1|c" st = Ok tt st'
     /\ counter_metrics st'
        = <["foo" := Num.add (default (Num.Finite 0)
                                      (counter_metrics st !! "foo"))
                             (Num.Finite 1)]>
            (counter_metrics st)
     /\ log st' = log st)
  /\ Forall (fun message =>
               exists st',
                 process message st = Ok tt st'
                 /\ log st' = (log st ++ [BadLine message])%list
                 /\ same_accumulators st st')
            ["foo1|c"; "foo:1"; "foo:1|c|extra|more"; "foo:|c"].
Proof.
  split.
  - rewrite (process_routes "foo:1|c" "foo" "1|c" ["1"; "c"] "c")
      by reflexivity.
    rewrite process_message_counter. unfold around.
    rewrite (process_counter_metric_fields _ _ (Num.Finite 1) (Num.of_Z 1))
      by (apply counter_plain; reflexivity).
    eexists. split; [reflexivity|]. split; reflexivity.
  - constructor.
    { destruct (malformed_shape_rejected "foo1|c" st) as (st' & ? & ? & _ & ?);
        [apply bad_separator_colon; reflexivity|eauto]. }
    constructor.
    { destruct (malformed_shape_rejected "foo:1" st) as (st' & ? & ? & _ & ?);
        [apply (bad_separator_pipe _ _ "foo" "1"); reflexivity|eauto]. }
    constructor.
    { destruct (malformed_shape_rejected "foo:1|c|extra|more" st)
        as (st' & ? & ? & _ & ?);
        [apply (bad_field_count _ _ "foo" "1|c|extra|more"); reflexivity|eauto]. }
    constructor; [|constructor].
    destruct (unparsable_counted "foo:|c" "foo" "" ["c"] "c" st)
      as (st' & ? & ? & ? & _); [|auto|reflexivity|eauto].
    exists "|c". repeat split.
Qed.

End Ingest.

(** ** Flush *)

Section Flush.

Context `{Reporters}.

Local Open Scope proc_scope.

(** *** What the later stages of a flush leave alone *)

Lemma keeps_bind {A B} (m : M A) (k : A -> M B) :
  keeps_counters m -> (forall a, keeps_counters (k a)) ->
  keeps_counters (bind m k).
Proof.
  intros Hm Hk st b st'. unfold bind.
  destruct (m st) as [a st1|] eqn:Em; try discriminate.
  intros Hb. destruct (Hm _ _ _ Em) as [E1 E2].
  destruct (Hk a _ _ _ Hb) as [E3 E4]. split; congruence.
Qed.

Lemma keeps_ret {A} (a : A) : keeps_counters (ret a).
Proof. intros st a' st' [= _ <-]. auto. Qed.

Lemma keeps_raise {A} e : keeps_counters (@raise _ A e).
Proof. intros st a st'. discriminate. Qed.

Lemma keeps_get : keeps_counters get.
Proof. intros st a st' [= _ <-]. auto. Qed.

Lemma keeps_modify f :
  (forall st, counter_metrics (f st) = counter_metrics st
              /\ conf (f st) = conf st) ->
  keeps_counters (modify f).
Proof. intros Hf st a st' [= Hst]. subst st'. apply Hf. Qed.

Lemma keeps_call_time_function : keeps_counters call_time_function.
Proof. intros st a st' [= _ <-]. auto. Qed.

Lemma keeps_for_each {A B} (l : list A) (body : A -> M B) :
  (forall x, keeps_counters (body x)) -> keeps_counters (for_each l body).
Proof.
  intros Hbody. induction l as [|x r IH]; cbn [for_each].
  - apply keeps_ret.
  - apply keeps_bind; [apply Hbody|]. intros y.
    apply keeps_bind; [apply IH|]. intros ys. apply keeps_ret.
Qed.

Lemma keeps_item {A} (l : list A) i : keeps_counters (item l i).
Proof. unfold item. destruct (l !! i); [apply keeps_ret|apply keeps_raise]. Qed.

Lemma keeps_last_item {A} (l : list A) : keeps_counters (last_item l).
Proof.
  unfold last_item. destruct (last l); [apply keeps_ret|apply keeps_raise].
Qed.

Lemma keeps_true_div x n : keeps_counters (true_div x n).
Proof.
  unfold true_div. destruct (n =? 0)%Z; [apply keeps_raise|apply keeps_ret].
Qed.

(** The routine steps of such a proof. *)
Ltac keeps :=
  repeat first
    [ apply keeps_ret
    | apply keeps_raise
    | apply keeps_get
    | apply keeps_call_time_function
    | apply keeps_item
    | apply keeps_last_item
    | apply keeps_true_div
    | apply keeps_modify; intros ?; split; reflexivity
    | apply keeps_for_each; intros ?
    | apply keeps_bind; [|intros ?]
    | match goal with
      | |- keeps_counters (if ?b then _ else _) => destruct b
      | |- keeps_counters (match ?x with _ => _ end) => destruct x
      end ].

Lemma keeps_compute_timer_stats percent timers :
  keeps_counters (compute_timer_stats percent timers).
Proof. unfold compute_timer_stats. keeps. Qed.

Lemma keeps_flush_timer percent timestamp entry :
  keeps_counters (flush_timer percent timestamp entry).
Proof.
  unfold flush_timer. destruct entry as [key timers].
  destruct (0 <? _)%nat; [|keeps].
  apply keeps_bind; [keeps|intros _].
  apply keeps_bind; [apply keeps_compute_timer_stats|intros stats]. keeps.
Qed.

Lemma keeps_flush_timer_metrics percent timestamp :
  keeps_counters (flush_timer_metrics percent timestamp).
Proof.
  unfold flush_timer_metrics.
  apply keeps_bind; [keeps|intros st].
  apply keeps_bind; [|intros out; keeps].
  apply keeps_for_each. apply keeps_flush_timer.
Qed.

Lemma keeps_flush_gauge_metrics timestamp :
  keeps_counters (flush_gauge_metrics timestamp).
Proof. unfold flush_gauge_metrics. keeps. Qed.

Lemma keeps_flush_meter_metrics timestamp :
  keeps_counters (flush_meter_metrics timestamp).
Proof. unfold flush_meter_metrics. keeps. Qed.

Lemma keeps_flush_plugin_metrics interval timestamp :
  keeps_counters (flush_plugin_metrics interval timestamp).
Proof. unfold flush_plugin_metrics. keeps. Qed.

Lemma keeps_flush_summary_category timestamp entry :
  keeps_counters (flush_summary_category timestamp entry).
Proof. unfold flush_summary_category. keeps. Qed.

Lemma keeps_flush_summary_type timestamp entry :
  keeps_counters (flush_summary_type timestamp entry).
Proof. unfold flush_summary_type. keeps. Qed.

Lemma keeps_flush_metrics_summary num_stats per_metric timestamp :
  keeps_counters (flush_metrics_summary num_stats per_metric timestamp).
Proof.
  unfold flush_metrics_summary.
  apply keeps_bind; [keeps|intros st].
  apply keeps_bind; [keeps|intros _].
  apply keeps_bind;
    [apply keeps_for_each, keeps_flush_summary_category|intros categories].
  apply keeps_bind; [keeps|intros _].
  apply keeps_bind; [keeps|intros st1].
  apply keeps_bind;
    [apply keeps_for_each, keeps_flush_summary_type|intros types].
  keeps.
Qed.

Lemma keeps_flush_category metrics :
  keeps_counters metrics -> keeps_counters (flush_category metrics).
Proof.
  intros Hm. unfold flush_category.
  apply keeps_bind; [keeps|intros start].
  apply keeps_bind; [exact Hm|intros groups]. keeps.
Qed.

(** *** Counters *)

Lemma zeroed_lookup l (m : gmap string Num.float) k :
  zeroed l m !! k
  = if decide (k ∈ l.*1) then Some (Num.Finite 0) else m !! k.
Proof.
  revert m. induction l as [|[key count] l IH]; intros m; cbn.
  - rewrite decide_False by apply not_elem_of_nil. reflexivity.
  - unfold zeroed in IH |- *. cbn. rewrite IH.
    destruct (decide (k ∈ l.*1)) as [Hin|Hout].
    + rewrite decide_True by (right; exact Hin). reflexivity.
    + destruct (decide (key = k)) as [->|Hne].
      * rewrite decide_True by left. apply lookup_insert_eq.
      * rewrite decide_False.
        -- apply lookup_insert_ne, Hne.
        -- intros Hk. apply elem_of_cons in Hk as [Hk|Hk]; congruence.
Qed.

(** The loop over all the entries of a map leaves every entry at [0]. *)
Lemma zeroed_map_to_list (m : gmap string Num.float) :
  zeroed (map_to_list m) m = (fun _ => Num.Finite 0) <$> m.
Proof.
  apply map_eq. intros k. rewrite zeroed_lookup, lookup_fmap.
  destruct (m !! k) as [v|] eqn:Hk; cbn.
  - rewrite decide_True; [reflexivity|].
    apply list_elem_of_fmap. exists (k, v). split; [reflexivity|].
    apply elem_of_map_to_list, Hk.
  - rewrite decide_False; [reflexivity|].
    intros Hin. apply list_elem_of_fmap in Hin as ([k' v] & -> & Hin).
    apply elem_of_map_to_list in Hin. cbn in Hk. congruence.
Qed.

Lemma set_counter_metrics_same st :
  set_counter_metrics (counter_metrics st) st = st.
Proof. destruct st; reflexivity. Qed.

(** The loop of [flush_counter_metrics] with an interval that is not zero. *)
Lemma for_each_flush_counter interval timestamp l : forall st,
  interval <> 0%Z ->
  for_each l (flush_counter interval timestamp) st
  = Ok (counter_groups (conf st) interval timestamp l)
       (set_counter_metrics (zeroed l (counter_metrics st)) st).
Proof.
  induction l as [|[key count] l IH]; intros st Hi.
  - cbn. rewrite set_counter_metrics_same. reflexivity.
  - apply Z.eqb_neq in Hi as Hi'.
    cbn [for_each]. unfold bind at 1. unfold flush_counter at 1.
    unfold bind, modify, true_div, get, ret. rewrite Hi'.
    rewrite IH by exact Hi. reflexivity.
Qed.

Lemma flush_counter_metrics_run interval timestamp st :
  interval <> 0%Z ->
  flush_counter_metrics interval timestamp st
  = Ok (counter_groups (conf st) interval timestamp
                       (map_to_list (counter_metrics st)))
       (set_counter_metrics
          (if delete_idle_counters (conf st) then ∅
           else (fun _ => Num.Finite 0) <$> counter_metrics st) st).
Proof.
  intros Hi. unfold flush_counter_metrics, bind, get.
  rewrite for_each_flush_counter by exact Hi.
  rewrite zeroed_map_to_list. cbn.
  destruct (delete_idle_counters (conf st)); reflexivity.
Qed.

(** With the interval zero the first counter raises, so that the loop
    returns for an empty map only. *)
Lemma flush_counter_metrics_zero timestamp st out st' :
  flush_counter_metrics 0 timestamp st = Ok out st' ->
  counter_metrics st = ∅ /\ counter_metrics st' = ∅ /\ conf st' = conf st.
Proof.
  unfold flush_counter_metrics, bind, get.
  destruct (map_to_list (counter_metrics st)) as [|[key count] l] eqn:Hl.
  - apply map_to_list_empty_iff in Hl. cbn.
    destruct (delete_idle_counters (conf st)); cbn; intros [= _ <-]; cbn; auto.
  - cbn. discriminate.
Qed.

(** After [flush_counter_metrics] has returned, the counters are all [0],
    or the map is empty under [delete_idle_counters]. *)
Lemma flush_counter_metrics_ok interval timestamp st out st' :
  flush_counter_metrics interval timestamp st = Ok out st' ->
  counter_metrics st'
  = (if delete_idle_counters (conf st) then ∅
     else (fun _ => Num.Finite 0) <$> counter_metrics st)
  /\ conf st' = conf st.
Proof.
  destruct (decide (interval = 0%Z)) as [->|Hi].
  - intros Hf. apply flush_counter_metrics_zero in Hf as (E & E' & Ec).
    rewrite E', E, fmap_empty. destruct (delete_idle_counters (conf st)); auto.
  - rewrite flush_counter_metrics_run by exact Hi. intros [= _ <-]. auto.
Qed.

Lemma flush_category_ok metrics st r st' :
  flush_category metrics st = Ok r st' ->
  exists groups st1,
    metrics (set_clock (S (clock st)) st) = Ok groups st1
    /\ st' = set_clock (S (clock st1)) st1.
Proof.
  unfold flush_category, bind, call_time_function, ret.
  destruct (metrics _) as [groups st1|]; try discriminate.
  intros [= _ <-]. eauto.
Qed.

(** The stages of [flush] after the counters. *)
Lemma keeps_flush_rest interval percent timestamp counters counter :
  keeps_counters
    (let* (timers, timer) :=
       flush_category (flush_timer_metrics percent timestamp) in
     let* (gauges, gauge) :=
       flush_category (flush_gauge_metrics timestamp) in
     let* (meters, meter) :=
       flush_category (flush_meter_metrics timestamp) in
     let* (plugins, plugin) :=
       flush_category (flush_plugin_metrics interval timestamp) in
     let num_stats := (fst counter + fst timer + fst gauge + fst meter
                       + fst plugin)%Z in
     let per_metric : gmap string (Z * Num.float) :=
       <["plugin" := plugin]> (<["meter" := meter]> (<["gauge" := gauge]>
         (<["timer" := timer]> (<["counter" := counter]> ∅)))) in
     let* summary := flush_metrics_summary num_stats per_metric timestamp in
     ret (counters ++ timers ++ gauges ++ meters ++ plugins
          ++ concat summary)%list).
Proof.
  apply keeps_bind;
    [apply keeps_flush_category, keeps_flush_timer_metrics|intros [? ?]].
  apply keeps_bind;
    [apply keeps_flush_category, keeps_flush_gauge_metrics|intros [? ?]].
  apply keeps_bind;
    [apply keeps_flush_category, keeps_flush_meter_metrics|intros [? ?]].
  apply keeps_bind;
    [apply keeps_flush_category, keeps_flush_plugin_metrics|intros [? ?]].
  cbn zeta.
  apply keeps_bind; [apply keeps_flush_metrics_summary|intros ?].
  apply keeps_ret.
Qed.

(** C4: after a flush that completes, every entry of the counter map is [0],
    and under [delete_idle_counters] the counter map is empty. *)
Theorem counters_zero_after_flush interval percent st out st' :
  flush interval percent st = Ok out st' ->
  (forall key count,
     counter_metrics st' !! key = Some count -> count = Num.Finite 0)
  /\ (delete_idle_counters (conf st) = true -> counter_metrics st' = ∅).
Proof.
  unfold flush. unfold bind at 1. unfold call_time_function at 1.
  unfold bind at 1.
  destruct (flush_category _ _) as [[counters counter] st1|] eqn:Ecat;
    try discriminate.
  intros Hrest. apply keeps_flush_rest in Hrest as [Hc _].
  apply flush_category_ok in Ecat as (groups & st2 & Hflush & ->).
  apply flush_counter_metrics_ok in Hflush as [Hzero _].
  cbn in Hc, Hzero. rewrite Hc, Hzero. split.
  - intros key count. destruct (delete_idle_counters (conf st)).
    + rewrite lookup_empty. discriminate.
    + rewrite lookup_fmap.
      destruct (counter_metrics st !! key); cbn; congruence.
  - intros ->. reflexivity.
Qed.

Lemma bind_ok {A B} (m : M A) (k : A -> M B) st b st' :
  bind m k st = Ok b st' ->
  exists a st1, m st = Ok a st1 /\ k a st1 = Ok b st'.
Proof.
  unfold bind. destruct (m st) as [a st1|]; try discriminate. eauto.
Qed.

Lemma flush_rest_output interval percent timestamp counters counter st out
      st' :
  (let* (timers, timer) :=
     flush_category (flush_timer_metrics percent timestamp) in
   let* (gauges, gauge) :=
     flush_category (flush_gauge_metrics timestamp) in
   let* (meters, meter) :=
     flush_category (flush_meter_metrics timestamp) in
   let* (plugins, plugin) :=
     flush_category (flush_plugin_metrics interval timestamp) in
   let num_stats := (fst counter + fst timer + fst gauge + fst meter
                     + fst plugin)%Z in
   let per_metric : gmap string (Z * Num.float) :=
     <["plugin" := plugin]> (<["meter" := meter]> (<["gauge" := gauge]>
       (<["timer" := timer]> (<["counter" := counter]> ∅)))) in
   let* summary := flush_metrics_summary num_stats per_metric timestamp in
   ret (counters ++ timers ++ gauges ++ meters ++ plugins
        ++ concat summary)%list) st = Ok out st' ->
  exists rest, out = (counters ++ rest)%list.
Proof.
  intros Hrun.
  apply bind_ok in Hrun as ([timers timer] & st1 & _ & Hrun).
  apply bind_ok in Hrun as ([gauges gauge] & st2 & _ & Hrun).
  apply bind_ok in Hrun as ([meters meter] & st3 & _ & Hrun).
  apply bind_ok in Hrun as ([plugins plugin] & st4 & _ & Hrun).
  cbn zeta in Hrun.
  apply bind_ok in Hrun as (summary & st5 & _ & Hrun).
  injection Hrun as <- _. eauto.
Qed.

(** A flush that completes starts with the samples of the counters, computed
    with the interval in seconds and the clock reading taken first. *)
Lemma flush_starts_with_counters interval percent st out st' :
  flush interval percent st = Ok out st' ->
  let timestamp := Num.int (time_function (conf st) (clock st)) in
  exists rest,
    out = (concat (counter_groups (conf st) (interval / 1000) timestamp
                                  (map_to_list (counter_metrics st)))
           ++ rest)%list
    /\ (counter_metrics st = ∅ \/ (interval / 1000)%Z <> 0%Z).
Proof.
  unfold flush. unfold bind at 1. unfold call_time_function at 1.
  unfold bind at 1.
  destruct (flush_category _ _) as [[counters counter] st1|] eqn:Ecat;
    try discriminate.
  intros Hrest. apply flush_rest_output in Hrest as [rest ->].
  unfold flush_category, bind, call_time_function, ret in Ecat.
  destruct (flush_counter_metrics _ _ _) as [groups st2|] eqn:Hflush;
    try discriminate.
  injection Ecat as <- _ _. cbn zeta. exists rest.
  destruct (decide ((interval / 1000)%Z = 0%Z)) as [Hz|Hnz].
  - rewrite Hz in Hflush |- *.
    pose proof (flush_counter_metrics_zero _ _ _ _ Hflush) as (Hempty & _).
    cbn in Hempty. split; [|left; exact Hempty].
    unfold flush_counter_metrics, bind, get in Hflush. cbn in Hflush.
    rewrite Hempty, map_to_list_empty in Hflush |- *. cbn in Hflush |- *.
    destruct (delete_idle_counters (conf st)); cbn in Hflush;
      injection Hflush as <- _; reflexivity.
  - rewrite flush_counter_metrics_run in Hflush by exact Hnz.
    injection Hflush as <- _. split; [reflexivity|right; exact Hnz].
Qed.

Lemma legacy_MessageProcessor clock plugins message_prefix
      internal_metrics_prefix delete_idle_counters lightweight_mode :
  legacy (MessageProcessor clock plugins true message_prefix
                           internal_metrics_prefix delete_idle_counters
                           lightweight_mode).
Proof. repeat split. Qed.

Lemma counter_output_legacy c key count value timestamp :
  legacy_namespace c = true -> stats_prefix c = "stats." ->
  count_prefix c = "stats_counts." ->
  counter_output c key count value timestamp
  = if lightweight_mode c
    then [("stats_counts." ++ key, count, timestamp)]
    else [("stats." ++ key, value, timestamp);
          ("stats_counts." ++ key, count, timestamp)].
Proof.
  intros Hl Hs Hc. unfold counter_output. rewrite Hl, Hs, Hc. cbn.
  destruct (lightweight_mode c); reflexivity.
Qed.

Lemma counter_groups_legacy st interval timestamp l :
  legacy st ->
  counter_groups (conf st) interval timestamp l
  = map (fun entry =>
           if lightweight_mode (conf st)
           then [("stats_counts." ++ fst entry, snd entry, timestamp)]
           else [("stats." ++ fst entry,
                  Num.div (snd entry) (Num.of_Z interval), timestamp);
                 ("stats_counts." ++ fst entry, snd entry, timestamp)]) l.
Proof.
  intros (Hl & Hs & Hc & _). unfold counter_groups.
  apply map_ext. intros [key count]. cbn.
  apply counter_output_legacy; assumption.
Qed.








(** C3, as the code has it: a counter message whose value parses as [v],
    with the rate [r] of its third field or [1] without one, the rate not
    being zero, adds [v * (1 / r)] to [counter_metrics[key]], an absent entry
    counting as [0]: ["k:3|c|@0.5"] adds [6] to [k], and after it ["k:4|c"]
    brings a new [k] to [10].  With lightweight mode off, a flush with an
    interval of [I] milliseconds emits for a counter, in the legacy
    namespace, the pair [(stats.<key>, total / (I // 1000), ts)] and
    [(stats_counts.<key>, total, ts)], [total] being the sum at flush time
    and [I // 1000] the quotient of the integers, rounded down, which must
    not be zero: with [I = 1500] a counter at [10] gives [stats.a 10]. *)
Theorem counter_accumulates_and_flushes :
  (forall key fields v r message st,
     counter_fields fields v r -> Num.is_zero r = false ->
     process_counter_metric key fields message st
     = Ok tt (set_counter_metrics
                (<[key := Num.add
                           (default (Num.Finite 0)
                                    (counter_metrics st !! key))
                           (Num.mul v (Num.div (Num.of_Z 1) r))]>
                   (counter_metrics st)) st))
  /\ (forall st,
        exists st',
          process "k:3|c|@0.5" st = Ok tt st'
          /\ counter_metrics st'
             = <["k" := Num.add (default (Num.Finite 0)
                                         (counter_metrics st !! "k"))
                                (Num.Finite 6)]>
                 (counter_metrics st))
  /\ counter_metrics
       (after_messages ["k:3|c|@0.5"; "k:4|c"]
                       (processor_at_1000 true false false)) !! "k"
     = Some (Num.Finite 10)
  /\ (forall st key total interval timestamp,
        legacy st -> lightweight_mode (conf st) = false ->
        (interval / 1000)%Z <> 0%Z ->
        counter_metrics st !! key = Some total ->
        exists out st',
          flush_counter_metrics (interval / 1000) timestamp st = Ok out st'
          /\ In [("stats." ++ key,
                  Num.div total (Num.of_Z (interval / 1000)), timestamp);
                 ("stats_counts." ++ key, total, timestamp)] out)
  /\ (forall st key total interval percent out st',
        legacy st -> lightweight_mode (conf st) = false ->
        counter_metrics st !! key = Some total ->
        flush interval percent st = Ok out st' ->
        let timestamp := Num.int (time_function (conf st) (clock st)) in
        (interval / 1000)%Z <> 0%Z
        /\ exists before after,
             out = app before
                       (app [("stats." ++ key,
                              Num.div total (Num.of_Z (interval / 1000)),
                              timestamp);
                             ("stats_counts." ++ key, total, timestamp)]
                            after))
  /\ (exists rest st',
        flush 1500 90 (after_messages ["a:10|c"]
                                      (processor_at_1000 true false false))
        = Ok (("stats.a", Num.Finite 10, 1000%Z)
              :: ("stats_counts.a", Num.Finite 10, 1000%Z) :: rest) st').
Proof.
  split; [|split; [|split; [|split; [|split]]]].
  - intros key fields v r message st Hf Hz.
    rewrite (process_counter_metric_fields _ _ _ _ _ _ Hf), Hz. reflexivity.
  - intros st.
    rewrite (process_routes "k:3|c|@0.5" "k" "3|c|@0.5" ["3"; "c"; "@0.5"] "c")
      by reflexivity.
    rewrite process_message_counter. unfold around.
    rewrite (process_counter_metric_fields _ _ (Num.Finite 3)
                                           (Num.Finite (1 # 2)))
      by (apply (counter_rated "3" "c" "@0.5" "0.5"); vm_compute; reflexivity).
    eexists. split; [reflexivity|].
    cbn [counter_metrics set_counter_metrics self_metrics set_by_type
         set_process_timings set_clock].
    replace (Num.mul (Num.Finite 3) (Num.div (Num.of_Z 1) (Num.Finite (1 # 2))))
      with (Num.Finite 6) by (vm_compute; reflexivity).
    reflexivity.
  - vm_compute. reflexivity.
  - intros st key total interval timestamp Hleg Hlw Hi Hk.
    rewrite flush_counter_metrics_run by exact Hi.
    rewrite (counter_groups_legacy _ _ _ _ Hleg), Hlw.
    eexists _, _. split; [reflexivity|].
    apply in_map_iff. exists (key, total). split; [reflexivity|].
    apply list_elem_of_In, elem_of_map_to_list, Hk.
  - intros st key total interval percent out st' Hleg Hlw Hk Hflush timestamp.
    apply flush_starts_with_counters in Hflush as (rest & -> & Hnz).
    split.
    { destruct Hnz as [Hempty|Hnz]; [|exact Hnz].
      rewrite Hempty, lookup_empty in Hk. discriminate Hk. }
    rewrite (counter_groups_legacy _ _ _ _ Hleg), Hlw.
    apply elem_of_map_to_list, list_elem_of_In, in_split in Hk
      as (l1 & l2 & ->).
    rewrite map_app, concat_app. cbn [map concat fst snd].
    rewrite <- !app_assoc.
    eexists _, _. reflexivity.
  - eexists _, _. vm_compute. reflexivity.
Qed.

End Flush.

(** ** What a call leaves alone *)

Section Unchanged.

Context `{Reporters}.

Local Open Scope proc_scope.

Lemma unchanged_bind {A B C} (f : processor -> C) (m : M A) (k : A -> M B) :
  unchanged f m -> (forall a, unchanged f (k a)) -> unchanged f (bind m k).
Proof.
  intros Hm Hk st. unfold bind. specialize (Hm st).
  destruct (m st) as [a st1|e st1]; [|exact Hm].
  specialize (Hk a st1).
  destruct (k a st1) as [b st2|e st2]; congruence.
Qed.

Lemma unchanged_ret {A C} (f : processor -> C) (a : A) : unchanged f (ret a).
Proof. intros st. reflexivity. Qed.

Lemma unchanged_raise {A C} (f : processor -> C) e :
  unchanged f (@raise _ A e).
Proof. intros st. reflexivity. Qed.

Lemma unchanged_get {C} (f : processor -> C) : unchanged f get.
Proof. intros st. reflexivity. Qed.

Lemma unchanged_modify {C} (f : processor -> C) g :
  (forall st, f (g st) = f st) -> unchanged f (modify g).
Proof. intros Hg st. apply Hg. Qed.

Lemma unchanged_fail {C} (f : processor -> C) message :
  (forall v st, f (set_log v st) = f st) -> unchanged f (fail message).
Proof. intros Hf. apply unchanged_modify. intros st. apply Hf. Qed.

Lemma unchanged_call_time_function {C} (f : processor -> C) :
  (forall v st, f (set_clock v st) = f st) -> unchanged f call_time_function.
Proof. intros Hf st. apply Hf. Qed.

Lemma unchanged_for_each {A B C} (f : processor -> C) (l : list A)
      (body : A -> M B) :
  (forall x, unchanged f (body x)) -> unchanged f (for_each l body).
Proof.
  intros Hbody. induction l as [|x r IH]; cbn [for_each].
  - apply unchanged_ret.
  - apply unchanged_bind; [apply Hbody|]. intros y.
    apply unchanged_bind; [apply IH|]. intros ys. apply unchanged_ret.
Qed.

Lemma unchanged_item {A C} (f : processor -> C) (l : list A) i :
  unchanged f (item l i).
Proof.
  unfold item. destruct (l !! i); [apply unchanged_ret|apply unchanged_raise].
Qed.

Lemma unchanged_last_item {A C} (f : processor -> C) (l : list A) :
  unchanged f (last_item l).
Proof.
  unfold last_item.
  destruct (last l); [apply unchanged_ret|apply unchanged_raise].
Qed.

Lemma unchanged_true_div {C} (f : processor -> C) x n :
  unchanged f (true_div x n).
Proof.
  unfold true_div.
  destruct (n =? 0)%Z; [apply unchanged_raise|apply unchanged_ret].
Qed.

Lemma unchanged_ok {A C} (f : processor -> C) (m : M A) st a st' :
  unchanged f m -> m st = Ok a st' -> f st' = f st.
Proof. intros Hm Hrun. specialize (Hm st). rewrite Hrun in Hm. exact Hm. Qed.

End Unchanged.

(** The routine steps of a proof that a part of the state is left alone:
    the methods are unfolded down to the state operations, and a [modify]
    must be one of another field. *)
Ltac unchanged_steps :=
  repeat first
    [ match goal with
      | |- unchanged _ (bind _ _) => apply unchanged_bind; [|intros ?]
      | |- unchanged _ (ret _) => apply unchanged_ret
      | |- unchanged _ (raise _) => apply unchanged_raise
      | |- unchanged _ get => apply unchanged_get
      | |- unchanged _ (modify _) =>
          apply unchanged_modify; intros ?; reflexivity
      | |- unchanged _ (fail _) =>
          apply unchanged_fail; intros ? ?; reflexivity
      | |- unchanged _ call_time_function =>
          apply unchanged_call_time_function; intros ? ?; reflexivity
      | |- unchanged _ (for_each _ _) => apply unchanged_for_each; intros ?
      | |- unchanged _ (item _ _) => apply unchanged_item
      | |- unchanged _ (last_item _) => apply unchanged_last_item
      | |- unchanged _ (true_div _ _) => apply unchanged_true_div
      | |- unchanged _ (if ?b then _ else _) => destruct b
      | |- unchanged _ (match ?x with _ => _ end) => destruct x
      end
    | progress unfold flush, flush_category, flush_counter_metrics,
        flush_counter, flush_timer_metrics, flush_timer, compute_timer_stats,
        flush_gauge_metrics, flush_meter_metrics, flush_plugin_metrics,
        flush_metrics_summary, flush_summary_category, flush_summary_type,
        process, process_message, process_counter_metric,
        compose_counter_metric, float_of_rate, process_timer_metric,
        compose_timer_metric, process_gauge_metric, compose_gauge_metric,
        process_meter_metric, compose_meter_metric, process_plugin_metric ].

(** [f] after a call that returned, by the steps above. *)
Ltac unchanged_in f Hrun Hname :=
  pose proof Hrun as Hname;
  apply (unchanged_ok f) in Hname; [|unchanged_steps].

Section Stages.

Context `{Reporters}.

Local Open Scope proc_scope.

(** ** The stages of a flush, from its result *)

Lemma call_time_function_run st :
  call_time_function st = Ok (time_function (conf st) (clock st)) (tick st).
Proof. reflexivity. Qed.

(** A stage that returned: the generator returned between two clock
    readings, and the stage counts its groups. *)
Lemma flush_category_inversion metrics st out events duration st' :
  flush_category metrics st = Ok (out, (events, duration)) st' ->
  exists groups st1,
    metrics (tick st) = Ok groups st1
    /\ st' = tick st1
    /\ out = concat groups
    /\ events = Z.of_nat (length groups).
Proof.
  unfold flush_category. intros Hrun.
  apply bind_ok in Hrun as (start & st0 & Hstart & Hrun).
  rewrite call_time_function_run in Hstart. injection Hstart as <- <-.
  apply bind_ok in Hrun as (groups & st1 & Hgroups & Hrun).
  apply bind_ok in Hrun as (now & st2 & Hnow & Hrun).
  rewrite call_time_function_run in Hnow. injection Hnow as <- <-.
  unfold ret in Hrun. inversion Hrun; subst. eauto 10.
Qed.

(** A flush that returned went through its six stages, each from the state
    the one before left, with the timestamp and the interval in seconds
    computed at the start. *)
Lemma flush_inversion interval percent st out st' :
  flush interval percent st = Ok out st' ->
  let timestamp := Num.int (time_function (conf st) (clock st)) in
  let seconds := (interval / 1000)%Z in
  exists g1 s1 g2 s2 g3 s3 g4 s4 g5 s5 per_metric summary,
    flush_counter_metrics seconds timestamp (tick (tick st)) = Ok g1 s1
    /\ flush_timer_metrics percent timestamp (tick (tick s1)) = Ok g2 s2
    /\ flush_gauge_metrics timestamp (tick (tick s2)) = Ok g3 s3
    /\ flush_meter_metrics timestamp (tick (tick s3)) = Ok g4 s4
    /\ flush_plugin_metrics seconds timestamp (tick (tick s4)) = Ok g5 s5
    /\ flush_metrics_summary
         (Z.of_nat (length g1) + Z.of_nat (length g2) + Z.of_nat (length g3)
          + Z.of_nat (length g4) + Z.of_nat (length g5))
         per_metric timestamp (tick s5) = Ok summary st'
    /\ out = (concat g1 ++ concat g2 ++ concat g3 ++ concat g4 ++ concat g5
              ++ concat summary)%list.
Proof.
  intros Hrun. cbn zeta. unfold flush in Hrun.
  apply bind_ok in Hrun as (now & st0 & Hnow & Hrun).
  rewrite call_time_function_run in Hnow. injection Hnow as <- <-.
  apply bind_ok in Hrun as ([o1 [e1 d1]] & t1 & H1 & Hrun).
  apply flush_category_inversion in H1 as (g1 & s1 & H1 & -> & -> & ->).
  apply bind_ok in Hrun as ([o2 [e2 d2]] & t2 & H2 & Hrun).
  apply flush_category_inversion in H2 as (g2 & s2 & H2 & -> & -> & ->).
  apply bind_ok in Hrun as ([o3 [e3 d3]] & t3 & H3 & Hrun).
  apply flush_category_inversion in H3 as (g3 & s3 & H3 & -> & -> & ->).
  apply bind_ok in Hrun as ([o4 [e4 d4]] & t4 & H4 & Hrun).
  apply flush_category_inversion in H4 as (g4 & s4 & H4 & -> & -> & ->).
  apply bind_ok in Hrun as ([o5 [e5 d5]] & t5 & H5 & Hrun).
  apply flush_category_inversion in H5 as (g5 & s5 & H5 & -> & -> & ->).
  cbn zeta in Hrun. cbn [fst] in Hrun.
  apply bind_ok in Hrun as (summary & st6 & Hsummary & Hrun).
  unfold ret in Hrun. inversion Hrun; subst.
  exists g1, s1, g2, s2, g3, s3, g4, s4, g5, s5. eexists _, summary.
  repeat split; eassumption.
Qed.

End Stages.

(** ** Doubles *)

Section Doubles.

Local Open Scope Q_scope.

(** The nearest integer is at most a half away. *)
Lemma round_half_even_close x :
  Qabs (inject_Z (Num.round_half_even x) - x) <= 1 # 2.
Proof.
  unfold Num.round_half_even.
  pose proof (Qfloor_le x) as Hlo. pose proof (Qlt_floor x) as Hhi.
  rewrite inject_Z_plus in Hhi. change (inject_Z 1) with 1 in Hhi.
  apply Qabs_Qle_condition.
  destruct (Qcompare_spec (x - inject_Z (Qfloor x)) (1 # 2)) as [He|Hl|Hg].
  - destruct (Z.even (Qfloor x)); rewrite ?inject_Z_plus;
      change (inject_Z 1) with 1; split; lra.
  - split; lra.
  - rewrite inject_Z_plus. change (inject_Z 1) with 1. split; lra.
Qed.

Lemma round_half_even_nonneg x : 0 <= x -> (0 <= Num.round_half_even x)%Z.
Proof.
  intros Hx. unfold Num.round_half_even.
  assert (Hf : (0 <= Qfloor x)%Z).
  { change 0%Z with (Qfloor 0). apply Qfloor_resp_le, Hx. }
  destruct (Qcompare _ _); [destruct (Z.even _)| |]; lia.
Qed.

(** [2 ^ ilog2 q] is at most [q]. *)
Lemma ilog2_le q : 0 < q -> 2 ^ Num.ilog2 q <= q.
Proof.
  intros Hq. unfold Num.ilog2.
  set (a := Z.log2 (Qnum q)). set (b := Z.log2 (Z.pos (Qden q))).
  destruct (Qle_bool (2 ^ (a - b)) q) eqn:E; [apply Qle_bool_iff, E|].
  destruct q as [n d]. cbn [Qnum Qden] in *.
  assert (Hn : (0 < n)%Z) by (unfold Qlt in Hq; cbn in Hq; lia).
  pose proof (Z.log2_spec n Hn) as [Hn1 _]. fold a in Hn1.
  pose proof (Z.log2_spec (Z.pos d) (Pos2Z.is_pos d)) as [_ Hd2]. fold b in Hd2.
  assert (Ha : (0 <= a)%Z) by apply Z.log2_nonneg.
  assert (Hb : (0 <= b)%Z) by apply Z.log2_nonneg.
  replace (a - b - 1)%Z with (a - (b + 1))%Z by lia.
  rewrite Qpower_minus by (intros H; discriminate H).
  change 2 with (inject_Z 2).
  rewrite <- !Zpower_Qpower by lia.
  assert (Hpos : 0 < inject_Z (2 ^ (b + 1))).
  { change 0 with (inject_Z 0). rewrite <- Zlt_Qlt.
    apply Z.pow_pos_nonneg; lia. }
  apply Qle_shift_div_r; [exact Hpos|].
  unfold Qle, Qmult, inject_Z. cbn [Qnum Qden].
  rewrite Pos.mul_1_r, Z.mul_1_r. change (Z.succ b) with (b + 1)%Z in Hd2.
  assert (0 < 2 ^ a)%Z by (apply Z.pow_pos_nonneg; lia).
  nia.
Qed.

Lemma ulp_positive q : 0 < Num.ulp q.
Proof. apply Qpower_0_lt. reflexivity. Qed.

(** Rounding to the nearest double errs by half a unit in the last place at
    most. *)
Lemma nearest_pos_close q :
  Qabs (Num.nearest_pos q - q) <= Num.ulp q / 2.
Proof.
  unfold Num.nearest_pos. rewrite Qred_correct.
  pose proof (ulp_positive q) as Hu.
  pose proof (round_half_even_close (q / Num.ulp q)) as Hm.
  set (m := inject_Z (Num.round_half_even (q / Num.ulp q))) in *.
  apply Qabs_Qle_condition in Hm as [Hm1 Hm2].
  assert (Hq : q / Num.ulp q * Num.ulp q == q) by (field; lra).
  apply Qabs_Qle_condition.
  set (u := Num.ulp q) in *. set (x := q / u) in *.
  assert (Hdiv : u / 2 == u * (1 # 2)) by field.
  rewrite Hdiv. split; nra.
Qed.

(** A unit in the last place of [q] is [q / 2 ^ 52] at most, or it is the
    one of the subnormal doubles, [2 ^ -1074]. *)
Lemma ulp_bound q : 0 < q -> Num.ulp q <= q / 2 ^ 52 + 2 ^ (-1074).
Proof.
  intros Hq. unfold Num.ulp.
  assert (H1074 : 0 < 2 ^ (-1074)) by (apply Qpower_0_lt; reflexivity).
  assert (H52 : 0 < 2 ^ 52) by (apply Qpower_0_lt; reflexivity).
  assert (Hdiv : 0 < q / 2 ^ 52) by (apply Qlt_shift_div_l; lra).
  destruct (Z.max_spec (Num.ilog2 q - 52) (-1074)) as [[_ ->]|[_ ->]]; [lra|].
  rewrite Qpower_minus by (intros H; discriminate H).
  pose proof (ilog2_le q Hq) as Hl.
  assert (2 ^ Num.ilog2 q / 2 ^ 52 <= q / 2 ^ 52); [|lra].
  unfold Qdiv. apply Qmult_le_compat_r; [exact Hl|].
  apply Qinv_le_0_compat. lra.
Qed.

(** A coarse form of the two: a positive [q] and its nearest double differ
    by [(q + 1) / 2000000] at most. *)
Lemma nearest_close q :
  0 < q -> Qabs (Num.nearest q - q) <= (q + 1) * (1 # 2000000).
Proof.
  intros Hq. unfold Num.nearest.
  destruct (Qcompare_spec q 0) as [He|Hl|Hg]; [lra|lra|].
  pose proof (nearest_pos_close q) as Hc. pose proof (ulp_bound q Hq) as Hu.
  assert (H52 : q / 2 ^ 52 <= q * (1 # 1000000)).
  { unfold Qdiv. apply Qmult_le_l; [exact Hq|].
    apply Qle_bool_iff. vm_compute. reflexivity. }
  assert (H1074 : 2 ^ (-1074) <= 1 # 1000000).
  { apply Qle_bool_iff. vm_compute. reflexivity. }
  assert (Hdiv : Num.ulp q / 2 == Num.ulp q * (1 # 2)) by field.
  rewrite Hdiv in Hc. eapply Qle_trans; [exact Hc|]. lra.
Qed.

Lemma nearest_nonneg q : 0 <= q -> 0 <= Num.nearest q.
Proof.
  intros Hq. unfold Num.nearest.
  destruct (Qcompare_spec q 0) as [He|Hl|Hg]; [lra|lra|].
  unfold Num.nearest_pos. rewrite Qred_correct.
  pose proof (ulp_positive q) as Hu.
  apply Qmult_le_0_compat; [|lra].
  change 0 with (inject_Z 0). rewrite <- Zle_Qle.
  apply round_half_even_nonneg. apply Qle_shift_div_l; lra.
Qed.

Lemma int_inject_Z z : Num.int (inject_Z z) = z.
Proof.
  unfold Num.int.
  destruct (Qle_bool 0 (inject_Z z)); [apply Qfloor_Z|apply Qceiling_Z].
Qed.

(** [int(round(x))] for an [x] that is not negative: [floor(x + 1/2)]. *)
Lemma int_round_nonneg x :
  0 <= x -> Num.int (Num.round x) = Qfloor (x + (1 # 2)).
Proof.
  intros Hx. unfold Num.round.
  apply Qle_bool_iff in Hx. rewrite Hx. apply int_inject_Z.
Qed.

(** The doubles of some decimal numbers: [0.1] is not a tenth, three times
    [0.1] is not [0.3], a number below the smallest subnormal double is
    zero, and one above the largest double an infinity. *)
Lemma doubles_examples :
  Num.float_of_string "0.1"
  = Num.Parsed (Num.Finite (3602879701896397 # 36028797018963968))
  /\ Num.add (Num.add (Num.fl (1 # 10)) (Num.fl (1 # 10))) (Num.fl (1 # 10))
     = Num.Finite (1351079888211149 # 4503599627370496)
  /\ Num.fl (3 # 10) = Num.Finite (5404319552844595 # 18014398509481984)
  /\ Num.float_of_string "1e-400" = Num.Parsed (Num.Finite 0)
  /\ Num.float_of_string "1e400" = Num.Parsed (Num.Inf false)
  /\ Num.float_of_string "-Infinity" = Num.Parsed (Num.Inf true)
  /\ Num.float_of_string " nan " = Num.Parsed Num.NaN.
Proof. repeat split; vm_compute; reflexivity. Qed.

End Doubles.

(** ** Timers *)

Section Timers.

Context `{Reporters}.

Local Open Scope proc_scope.



Lemma sort_length l : length (Num.sort l) = length l.
Proof. apply Permutation_length, merge_sort_Permutation. Qed.

Lemma sort_singleton x : Num.sort [x] = [x].
Proof. reflexivity. Qed.

Lemma item_nth (l : list Num.float) i st :
  (i < length l)%nat -> item l i st = Ok (nth i l (Num.Finite 0)) st.
Proof.
  intros Hi. unfold item.
  destruct (lookup_lt_is_Some_2 l i Hi) as [x Hx].
  rewrite Hx, (nth_lookup_Some _ _ _ _ Hx). reflexivity.
Qed.

Lemma last_item_nth (l : list Num.float) st :
  (0 < length l)%nat ->
  last_item l st = Ok (nth (length l - 1) l (Num.Finite 0)) st.
Proof.
  intros Hl. unfold last_item. rewrite last_lookup.
  replace (pred (length l)) with (length l - 1)%nat by lia.
  destruct (lookup_lt_is_Some_2 l (length l - 1)) as [x Hx]; [lia|].
  rewrite Hx, (nth_lookup_Some _ _ _ _ Hx). reflexivity.
Qed.

Lemma slice_to_take {A} (l : list A) (i : Z) :
  (0 <= i)%Z -> Num.slice_to i l = take (Z.to_nat i) l.
Proof.
  intros Hi. unfold Num.slice_to.
  destruct (0 <=? i)%Z eqn:E; [reflexivity|]. apply Z.leb_gt in E. lia.
Qed.

Lemma nth_take (l : list Num.float) n i :
  (i < n)%nat -> nth i (take n l) (Num.Finite 0) = nth i l (Num.Finite 0).
Proof. intros Hi. rewrite !nth_lookup, lookup_take_lt by exact Hi. reflexivity. Qed.

(** The statistics of a timer with one sample: all of them are the sample. *)
Lemma compute_timer_stats_one percent x st :
  compute_timer_stats percent [x] st
  = Ok {| ts_lower := x; ts_upper := x; ts_count := 1; ts_mean := x;
          ts_threshold_upper := x |} st.
Proof. reflexivity. Qed.

(** The statistics of a timer with several samples, the index being in
    range. *)
Lemma compute_timer_stats_many percent samples st :
  let s := Num.sort samples in
  let count := length samples in
  let idx := trim_index percent count in
  (1 < count)%nat -> (1 <= idx <= Z.of_nat count)%Z ->
  compute_timer_stats percent samples st
  = Ok {| ts_lower := nth 0 s (Num.Finite 0);
          ts_upper := nth (count - 1) s (Num.Finite 0);
          ts_count := Z.of_nat count;
          ts_mean := Num.div (Num.sum (take (Z.to_nat idx) s)) (Num.of_Z idx);
          ts_threshold_upper := nth (Z.to_nat idx - 1) s (Num.Finite 0) |} st.
Proof.
  intros s count idx Hcount Hidx. unfold compute_timer_stats.
  fold s. unfold bind.
  rewrite item_nth by (unfold s; rewrite sort_length; fold count; lia).
  rewrite last_item_nth by (unfold s; rewrite sort_length; fold count; lia).
  assert (Hlen : length s = count) by apply sort_length.
  rewrite Hlen. fold idx.
  assert (Hlt : (1 <? count)%nat = true) by (apply Nat.ltb_lt; exact Hcount).
  rewrite Hlt, slice_to_take by lia.
  rewrite last_item_nth by (rewrite length_take_le; lia).
  rewrite length_take_le by lia. rewrite nth_take by lia.
  unfold true_div. assert (Hnz : (idx =? 0)%Z = false) by (apply Z.eqb_neq; lia).
  rewrite Hnz. reflexivity.
Qed.


(** *** The index of the trimmed mean *)

(** The thresholds from 26 to 100 give, in doubles, a [threshold_value]
    from 0 to 0.7401. *)
Lemma threshold_value_bound percent :
  (26 <= percent <= 100)%Z ->
  let t := Num.nearest (Num.nearest (inject_Z (100 - percent)) / 100) in
  (0 <= t /\ t <= 7401 # 10000)%Q.
Proof.
  intros Hp t.
  assert (Hall : forallb
            (fun n =>
               let t := Num.nearest
                          (Num.nearest (inject_Z (Z.of_nat n)) / 100) in
               (Qle_bool 0 t && Qle_bool t (7401 # 10000))%bool)
            (seq 0 75) = true) by (vm_compute; reflexivity).
  rewrite forallb_forall in Hall.
  assert (Hin : In (Z.to_nat (100 - percent)) (seq 0 75))
    by (apply in_seq; lia).
  apply Hall in Hin. cbn zeta in Hin. rewrite Z2Nat.id in Hin by lia.
  fold t in Hin. apply andb_prop in Hin as [H1 H2].
  split; apply Qle_bool_iff; assumption.
Qed.

(** With a threshold from 26 to 100 the index of a timer with several
    samples lies between 1 and their number, in doubles as in exact
    arithmetic. *)
Lemma trim_index_range percent count :
  (26 <= percent <= 100)%Z -> (1 < count)%nat ->
  (1 <= trim_index percent count <= Z.of_nat count)%Z.
Proof.
  intros Hp Hcount. unfold trim_index.
  pose proof (threshold_value_bound percent Hp) as [Ht0 Ht1].
  set (t := Num.nearest (Num.nearest (inject_Z (100 - percent)) / 100)) in *.
  set (c := inject_Z (Z.of_nat count)).
  assert (Hc : (2 <= c)%Q).
  { unfold c. change 2%Q with (inject_Z 2). rewrite <- Zle_Qle. lia. }
  pose proof (nearest_close c ltac:(lra)) as Hc'.
  apply Qabs_Qle_condition in Hc' as [Hc1 Hc2].
  set (c' := Num.nearest c) in *.
  assert (Hy : (0 <= t * c')%Q) by (apply Qmult_le_0_compat; lra).
  assert (Hy' : (t * c' <= (7401 # 10000) * c')%Q)
    by (apply Qmult_le_compat_r; lra).
  pose proof (nearest_nonneg (t * c') Hy) as Hx0.
  assert (Hx1 : (Num.nearest (t * c') + (1 # 2) < c)%Q).
  { destruct (Qlt_le_dec 0 (t * c')) as [Hpos|Hzero].
    - pose proof (nearest_close (t * c') Hpos) as Hx.
      apply Qabs_Qle_condition in Hx as [_ Hx]. lra.
    - assert (Hz : (t * c' == 0)%Q) by lra.
      assert (Hn : Num.nearest (t * c') = 0%Q).
      { unfold Num.nearest. destruct (Qcompare_spec (t * c') 0); [reflexivity|lra|lra]. }
      rewrite Hn. lra. }
  set (x := Num.nearest (t * c')) in *.
  rewrite int_round_nonneg by exact Hx0.
  assert (Hlow : (0 <= Qfloor (x + (1 # 2)))%Z).
  { change 0%Z with (Qfloor 0). apply Qfloor_resp_le. lra. }
  assert (Hhigh : (Qfloor (x + (1 # 2)) < Z.of_nat count)%Z).
  { rewrite Zlt_Qlt. fold c.
    eapply Qle_lt_trans; [apply Qfloor_le|exact Hx1]. }
  lia.
Qed.

(** *** The lines of a timer *)






End Timers.

(** ** The scenarios of the specification, run *)

Section Scenarios.

Context `{Reporters}.

Local Open Scope proc_scope.

(** C2, as the code has it: after ["orders:250|ms"] four times and
    ["orders:750|ms"] four times, a flush with threshold 90 at timestamp
    1000 in the legacy namespace emits for the timer the lines
    [count = 8], [lower = 250], [mean = 3250/7] (the seven lowest samples:
    [(250 * 4 + 750 * 3) / 7], rounded to the nearest double),
    [upper = 750] and [upper_90 = 750], and every line of the flush carries
    the timestamp 1000. *)
Theorem orders_timer_lines :
  exists st1 rest st',
    for_each orders_messages process (processor_at_1000 true false false)
    = Ok [tt; tt; tt; tt; tt; tt; tt; tt] st1
    /\ timer_metrics st1 !! "orders"
       = Some (map Num.Finite [250; 250; 250; 250; 750; 750; 750; 750]%Q)
    /\ trim_index 90 8 = 7%Z
    /\ flush 10000 90 st1
       = Ok ([("stats.timers.orders.count", Num.Finite 8, 1000%Z);
              ("stats.timers.orders.lower", Num.Finite 250, 1000%Z);
              ("stats.timers.orders.mean", Num.fl (3250 # 7), 1000%Z);
              ("stats.timers.orders.upper", Num.Finite 750, 1000%Z);
              ("stats.timers.orders.upper_90", Num.Finite 750, 1000%Z)]
             ++ rest)%list
            st'
    /\ Forall (fun s : sample => snd s = 1000%Z) rest
    /\ Forall (fun s : sample =>
                 String.prefix "statsd." (fst (fst s)) = true) rest.
Proof.
  eexists _, _, _.
  split; [vm_compute; reflexivity|].
  split; [vm_compute; reflexivity|].
  split; [vm_compute; reflexivity|].
  split; [vm_compute; reflexivity|].
  split; repeat constructor.
Qed.

End Scenarios.

(** The mean the specification gives for this scenario, 437.5, is not the
    one the flush emits: the line of the mean carries 3250/7, as a
    double. *)
Lemma orders_mean_is_not_437_5 :
  exists st1 out st',
    for_each orders_messages process (processor_at_1000 true false false)
    = Ok [tt; tt; tt; tt; tt; tt; tt; tt] st1
    /\ flush 10000 90 st1 = Ok out st'
    /\ filter (fun s => is_line "stats.timers.orders.mean" 1000 s = true) out
       = [("stats.timers.orders.mean", Num.fl (3250 # 7), 1000%Z)]
    /\ ~ In ("stats.timers.orders.mean", Num.Finite (875 # 2), 1000%Z) out
    /\ Num.fl (3250 # 7) <> Num.Finite (875 # 2).
Proof.
  eexists _, _, _.
  split; [vm_compute; reflexivity|].
  split; [vm_compute; reflexivity|].
  split; [vm_compute; reflexivity|].
  split.
  - intros Hin. cbn in Hin.
    repeat (destruct Hin as [Hin|Hin]; [discriminate Hin|]). exact Hin.
  - intros Heq. vm_compute in Heq. discriminate Heq.
Qed.


(** With an interval of 1500 milliseconds a counter at 10 flushes to the
    rate line [stats.a 10], the total divided by [1500 // 1000 = 1], and not
    to the total divided by the 1.5 seconds of the interval. *)
Lemma counter_rate_is_not_per_second :
  exists st1 out st',
    process "a:10|c" (processor_at_1000 true false false) = Ok tt st1
    /\ counter_metrics st1 !! "a" = Some (Num.Finite 10)
    /\ flush 1500 90 st1 = Ok out st'
    /\ filter (fun s => is_line "stats.a" 1000 s = true) out
       = [("stats.a", Num.Finite 10, 1000%Z)]
    /\ Num.div (Num.Finite 10) (Num.fl (inject_Z 1500 / 1000))
       = Num.fl (20 # 3)
    /\ ~ In ("stats.a", Num.fl (20 # 3), 1000%Z) out
    /\ ~ counter_rate_claim_as_stated.
Proof.
  assert (Hrun : exists st1 out st',
            process "a:10|c" (processor_at_1000 true false false) = Ok tt st1
            /\ counter_metrics st1 !! "a" = Some (Num.Finite 10)
            /\ legacy st1
            /\ Num.int (time_function (conf st1) (clock st1)) = 1000%Z
            /\ flush 1500 90 st1 = Ok out st'
            /\ filter (fun s => is_line "stats.a" 1000 s = true) out
               = [("stats.a", Num.Finite 10, 1000%Z)]
            /\ ~ In ("stats.a", Num.fl (20 # 3), 1000%Z) out).
  { eexists _, _, _.
    split; [vm_compute; reflexivity|].
    split; [vm_compute; reflexivity|].
    split; [repeat split|].
    split; [vm_compute; reflexivity|].
    split; [vm_compute; reflexivity|].
    split; [vm_compute; reflexivity|].
    intros Hin. vm_compute in Hin.
    repeat (destruct Hin as [Hin|Hin]; [discriminate Hin|]). exact Hin. }
  destruct Hrun as (st1 & out & st' & Hp & Hk & Hleg & Hts & Hflush & Hline
                    & Hnot).
  assert (Hdiv : Num.div (Num.Finite 10) (Num.fl (inject_Z 1500 / 1000))
                 = Num.fl (20 # 3)) by (vm_compute; reflexivity).
  exists st1, out, st'. repeat (split; [assumption|]).
  intros Hclaim.
  specialize (Hclaim st1 "a" (Num.Finite 10) 1500%Z 90%Z out st' Hleg Hk
                     Hflush).
  rewrite Hdiv, Hts in Hclaim. apply Hnot. exact Hclaim.
Qed.

(** The counter message ["k:abc|c"], whose value does not parse, is logged
    and dropped, and counted: [by_type["c"]] goes from absent to 1. *)
Lemma unparsable_counter_is_counted :
  Num.float_of_string "abc" = Num.Invalid
  /\ (exists st',
        process "k:abc|c" (processor_at_1000 true false false) = Ok tt st'
        /\ log st' = [BadLine "k:abc|c"]
        /\ by_type (processor_at_1000 true false false) !! "c" = None
        /\ by_type st' !! "c" = Some 1%Z)
  /\ ~ unparsable_counter_claim_as_stated.
Proof.
  split; [reflexivity|]. split.
  - eexists. split; [vm_compute; reflexivity|].
    split; [reflexivity|]. split; reflexivity.
  - intros Hclaim.
    destruct (process "k:abc|c" (processor_at_1000 true false false))
      as [[] st'|] eqn:Hrun; try (vm_compute in Hrun; discriminate Hrun).
    assert (Hw : well_shaped "k:abc|c" "k" ["abc"; "c"] "c")
      by (exists "abc|c"; repeat split).
    destruct (Hclaim _ _ _ _ _ _ Hw eq_refl Hrun) as [Hby _].
    assert (Hc : by_type st' !! "c" = Some 1%Z).
    { vm_compute in Hrun. injection Hrun as <-. reflexivity. }
    rewrite Hby in Hc. discriminate Hc.
Qed.

(** ** The theorems with hypotheses, at concrete inputs *)


(** [counter_accumulates_and_flushes] for the fields of ["k:3|c|@0.5"]. *)
Lemma counter_accumulates_and_flushes_witness :
  process_counter_metric "k" ["3"; "c"; "@0.5"] "k:3|c|@0.5"
                         (processor_at_1000 true false false)
  = Ok tt (set_counter_metrics
             (<["k" := Num.add
                         (default (Num.Finite 0)
                            (counter_metrics
                               (processor_at_1000 true false false) !! "k"))
                         (Num.mul (Num.Finite 3)
                                  (Num.div (Num.of_Z 1)
                                           (Num.Finite (1 # 2))))]>
                (counter_metrics (processor_at_1000 true false false)))
             (processor_at_1000 true false false)).
Proof.
  apply (proj1 counter_accumulates_and_flushes "k" ["3"; "c"; "@0.5"]
               (Num.Finite 3) (Num.Finite (1 # 2))).
  - apply (counter_rated "3" "c" "@0.5" "0.5"); vm_compute; reflexivity.
  - reflexivity.
Defined.

(** [counters_zero_after_flush] after one counter message. *)
Lemma counters_zero_after_flush_witness :
  exists st1 out st',
    process "a:10|c" (processor_at_1000 true false false) = Ok tt st1
    /\ flush 10000 90 st1 = Ok out st'
    /\ (forall key count,
          counter_metrics st' !! key = Some count -> count = Num.Finite 0)
    /\ (delete_idle_counters (conf st1) = true -> counter_metrics st' = ∅).
Proof.
  destruct (process "a:10|c" (processor_at_1000 true false false))
    as [[] st1|] eqn:Hingest;
    [|exfalso; vm_compute in Hingest; discriminate Hingest].
  destruct (flush 10000 90 st1) as [out st'|] eqn:Hflush.
  - exists st1, out, st'. split; [reflexivity|]. split; [exact Hflush|].
    exact (counters_zero_after_flush 10000 90 st1 out st' Hflush).
  - exfalso. vm_compute in Hingest. injection Hingest as <-.
    vm_compute in Hflush. discriminate Hflush.
Defined.

(** [malformed_self_metrics] for a message without a colon. *)
Lemma malformed_self_metrics_witness :
  exists st',
    process "foo1|c" (processor_at_1000 true false false) = Ok tt st'
    /\ log st'
       = (log (processor_at_1000 true false false) ++ [BadLine "foo1|c"])%list
    /\ by_type st' = by_type (processor_at_1000 true false false)
    /\ process_timings st'
       = process_timings (processor_at_1000 true false false).
Proof.
  apply (proj1 malformed_self_metrics "foo1|c"
               (processor_at_1000 true false false)).
  apply bad_separator_colon. reflexivity.
Defined.


(** [zero_rate_raises] for the fields of ["k:1|c|@0"]. *)
Lemma zero_rate_raises_witness :
  process_counter_metric "k" ["1"; "c"; "@0"] "k:1|c|@0"
                         (processor_at_1000 true false false)
  = Raise ZeroDivisionError
          (ensure_counter "k" (processor_at_1000 true false false))
  /\ log (ensure_counter "k" (processor_at_1000 true false false))
     = log (processor_at_1000 true false false).
Proof.
  apply (proj1 (proj2 (proj2 zero_rate_raises)) "k" ["1"; "c"; "@0"]
               (Num.Finite 1) (Num.Finite 0)).
  - apply (counter_rated "1" "c" "@0" "0"); reflexivity.
  - reflexivity.
Defined.

(** * More of the processor *)

Section FlushState.

Context `{Reporters}.

Local Open Scope proc_scope.

(** *** Timers after a flush *)

Lemma flush_timer_ok percent timestamp key timers st out st' :
  flush_timer percent timestamp (key, timers) st = Ok out st' ->
  timer_metrics st'
  = if (0 <? length timers)%nat then <[key := []]> (timer_metrics st)
    else timer_metrics st.
Proof.
  unfold flush_timer. destruct (0 <? length timers)%nat.
  - intros Hrun.
    apply bind_ok in Hrun as ([] & st1 & Hmodify & Hrun).
    unfold modify in Hmodify. injection Hmodify as <-.
    apply bind_ok in Hrun as (stats & st2 & Hstats & Hrun).
    apply (unchanged_ok timer_metrics) in Hstats; [|unchanged_steps].
    apply bind_ok in Hrun as (st3 & st4 & Hget & Hrun).
    unfold get in Hget. injection Hget as <- <-.
    unfold ret in Hrun. injection Hrun as _ <-. exact Hstats.
  - unfold ret. intros [= _ <-]. reflexivity.
Qed.

Lemma for_each_flush_timer_ok percent timestamp l : forall st out st',
  for_each l (flush_timer percent timestamp) st = Ok out st' ->
  timer_metrics st' = emptied l (timer_metrics st).
Proof.
  induction l as [|[key timers] l IH]; intros st out st' Hrun.
  - cbn in Hrun. unfold ret in Hrun. injection Hrun as _ <-. reflexivity.
  - cbn [for_each] in Hrun.
    apply bind_ok in Hrun as (group & st1 & Hfirst & Hrun).
    apply bind_ok in Hrun as (groups & st2 & Hrest & Hrun).
    unfold ret in Hrun. injection Hrun as _ <-.
    apply flush_timer_ok in Hfirst. apply IH in Hrest.
    rewrite Hrest, Hfirst. reflexivity.
Qed.

Lemma emptied_lookup l : forall (m : gmap string (list Num.float)) k,
  NoDup l.*1 ->
  (forall key timers, (key, timers) ∈ l -> m !! key = Some timers) ->
  emptied l m !! k = if decide (k ∈ l.*1) then Some [] else m !! k.
Proof.
  induction l as [|[key timers] l IH]; intros m k Hnd Hl.
  - cbn. rewrite decide_False by apply not_elem_of_nil. reflexivity.
  - cbn in Hnd. apply NoDup_cons in Hnd as [Hkey Hnd].
    unfold emptied in IH |- *. cbn [foldl fst snd].
    set (m1 := if (0 <? length timers)%nat then <[key := []]> m else m).
    assert (Hm1 : forall k', k' <> key -> m1 !! k' = m !! k').
    { intros k' Hne. unfold m1. destruct (0 <? length timers)%nat;
        [apply lookup_insert_ne; congruence|reflexivity]. }
    assert (Hkey1 : m1 !! key = Some []).
    { unfold m1. destruct (0 <? length timers)%nat eqn:Hlen.
      - apply lookup_insert_eq.
      - rewrite (Hl key timers) by left. apply Nat.ltb_ge in Hlen.
        destruct timers; [reflexivity|cbn in Hlen; lia]. }
    rewrite IH; [|exact Hnd|].
    2:{ intros key' timers' Hin. rewrite Hm1.
        - apply Hl. right. exact Hin.
        - intros ->. apply Hkey. apply list_elem_of_fmap.
          exists (key, timers'). split; [reflexivity|exact Hin]. }
    cbn [fmap list_fmap fst].
    destruct (decide (k ∈ l.*1)) as [Hin|Hout].
    + rewrite decide_True by (right; exact Hin). reflexivity.
    + destruct (decide (k = key)) as [->|Hne].
      * rewrite decide_True by left. exact Hkey1.
      * rewrite decide_False.
        -- apply Hm1, Hne.
        -- intros Hk. apply elem_of_cons in Hk as [Hk|Hk]; congruence.
Qed.

Lemma emptied_map_to_list (m : gmap string (list Num.float)) :
  emptied (map_to_list m) m = (fun _ => []) <$> m.
Proof.
  apply map_eq. intros k. rewrite lookup_fmap, emptied_lookup.
  - destruct (m !! k) as [v|] eqn:Hk; cbn.
    + rewrite decide_True; [reflexivity|].
      apply list_elem_of_fmap. exists (k, v). split; [reflexivity|].
      apply elem_of_map_to_list, Hk.
    + rewrite decide_False; [reflexivity|].
      intros Hin. apply list_elem_of_fmap in Hin as ([k' v] & -> & Hin).
      apply elem_of_map_to_list in Hin. cbn in Hk. congruence.
  - apply NoDup_fst_map_to_list.
  - intros key timers Hin. apply elem_of_map_to_list, Hin.
Qed.

Lemma flush_timer_metrics_ok percent timestamp st out st' :
  flush_timer_metrics percent timestamp st = Ok out st' ->
  timer_metrics st' = (fun _ => []) <$> timer_metrics st.
Proof.
  unfold flush_timer_metrics. intros Hrun.
  apply bind_ok in Hrun as (st0 & st1 & Hget & Hrun).
  unfold get in Hget. injection Hget as <- <-.
  apply bind_ok in Hrun as (groups & st2 & Hloop & Hrun).
  unfold ret in Hrun. injection Hrun as _ <-.
  apply for_each_flush_timer_ok in Hloop.
  rewrite Hloop. apply emptied_map_to_list.
Qed.

(** X1: after a flush that completes, every timer key is still there and
    its list of pending samples is empty. *)
Theorem flush_empties_timers interval percent st out st' :
  flush interval percent st = Ok out st' ->
  timer_metrics st' = (fun _ => []) <$> timer_metrics st.
Proof.
  intros Hrun.
  apply flush_inversion in Hrun
    as (g1 & s1 & g2 & s2 & g3 & s3 & g4 & s4 & g5 & s5 & pm & summary
        & H1 & H2 & H3 & H4 & H5 & H6 & _).
  apply (unchanged_ok timer_metrics) in H1; [|unchanged_steps].
  apply flush_timer_metrics_ok in H2.
  apply (unchanged_ok timer_metrics) in H3; [|unchanged_steps].
  apply (unchanged_ok timer_metrics) in H4; [|unchanged_steps].
  apply (unchanged_ok timer_metrics) in H5; [|unchanged_steps].
  apply (unchanged_ok timer_metrics) in H6; [|unchanged_steps].
  cbn in *. congruence.
Qed.

(** *** Gauges after a flush *)

Lemma flush_gauge_metrics_run timestamp st :
  flush_gauge_metrics timestamp st
  = Ok (map (fun '(key, value) =>
               [(gauge_prefix (conf st) ++ key ++ ".value", value,
                 timestamp)])
            (map_to_list (gauge_metrics st))) st.
Proof. reflexivity. Qed.

(** X2: a flush that completes leaves the gauges and the settings as they
    were, and its output has the line [<gauge_prefix><key>.value] with the
    value of every gauge, at the timestamp of the flush. *)
Theorem flush_keeps_gauges interval percent st out st' :
  flush interval percent st = Ok out st' ->
  gauge_metrics st' = gauge_metrics st
  /\ conf st' = conf st
  /\ (forall key value,
        gauge_metrics st !! key = Some value ->
        In (gauge_prefix (conf st) ++ key ++ ".value", value,
            Num.int (time_function (conf st) (clock st))) out).
Proof.
  intros Hrun.
  unchanged_in gauge_metrics Hrun Hgauges.
  unchanged_in conf Hrun Hconf.
  split; [exact Hgauges|]. split; [exact Hconf|].
  intros key value Hkey.
  apply flush_inversion in Hrun
    as (g1 & s1 & g2 & s2 & g3 & s3 & g4 & s4 & g5 & s5 & pm & summary
        & H1 & H2 & H3 & _ & _ & _ & ->).
  unchanged_in gauge_metrics H1 Hg1.
  unchanged_in gauge_metrics H2 Hg2.
  unchanged_in conf H1 Hc1.
  unchanged_in conf H2 Hc2.
  rewrite flush_gauge_metrics_run in H3. injection H3 as <- _.
  cbn in Hg1, Hg2, Hc1, Hc2. cbn [tick conf gauge_metrics set_clock].
  rewrite Hg2, Hg1, Hc2, Hc1.
  apply in_or_app. right. apply in_or_app. right. apply in_or_app. left.
  apply in_concat. eexists. split.
  - apply in_map_iff. exists (key, value). split; [reflexivity|].
    apply list_elem_of_In, elem_of_map_to_list, Hkey.
  - left. reflexivity.
Qed.

(** *** The summary of a flush *)

Lemma for_each_length {A B} (l : list A) (body : A -> M B) :
  forall st out st',
    for_each l body st = Ok out st' -> length out = length l.
Proof.
  induction l as [|x l IH]; intros st out st' Hrun; cbn [for_each] in Hrun.
  - unfold ret in Hrun. injection Hrun as <- _. reflexivity.
  - apply bind_ok in Hrun as (y & st1 & _ & Hrun).
    apply bind_ok in Hrun as (ys & st2 & Hrest & Hrun).
    unfold ret in Hrun. injection Hrun as <- _. cbn. f_equal.
    exact (IH _ _ _ Hrest).
Qed.

Lemma flush_summary_type_ok timestamp metric_type duration st out st' :
  flush_summary_type timestamp (metric_type, duration) st = Ok out st' ->
  by_type st' = by_type st /\ conf st' = conf st
  /\ exists count,
       by_type st !! metric_type = Some count
       /\ out = [(internal_metrics_prefix (conf st) ++ "receive."
                    ++ metric_type ++ ".count", Num.of_Z count, timestamp);
                 (internal_metrics_prefix (conf st) ++ "receive."
                    ++ metric_type ++ ".duration",
                  Num.mul duration (Num.of_Z 1000), timestamp)].
Proof.
  intros Hrun.
  unchanged_in by_type Hrun Hsame1.
  unchanged_in conf Hrun Hsame2.
  split; [assumption|]. split; [assumption|].
  unfold flush_summary_type, bind, get in Hrun.
  destruct (by_type st !! metric_type) as [count|]; [|discriminate].
  exists count. split; [reflexivity|].
  cbn in Hrun. unfold ret in Hrun. injection Hrun as <- _. reflexivity.
Qed.

Lemma for_each_flush_summary_type_ok timestamp l : forall st out st',
  for_each l (flush_summary_type timestamp) st = Ok out st' ->
  forall metric_type duration count,
    In (metric_type, duration) l ->
    by_type st !! metric_type = Some count ->
    In (internal_metrics_prefix (conf st) ++ "receive." ++ metric_type
          ++ ".count", Num.of_Z count, timestamp) (concat out).
Proof.
  induction l as [|[t d] l IH]; intros st out st' Hrun t' d' count Hin Hcount;
    [destruct Hin|].
  cbn [for_each] in Hrun.
  apply bind_ok in Hrun as (group & st1 & Hfirst & Hrun).
  apply bind_ok in Hrun as (groups & st2 & Hrest & Hrun).
  unfold ret in Hrun. injection Hrun as <- _.
  apply flush_summary_type_ok in Hfirst
    as (Hby & Hconf & count0 & Hcount0 & ->).
  cbn [concat]. apply in_or_app. destruct Hin as [[= -> ->]|Hin].
  - left. left. congruence.
  - right. rewrite <- Hconf. eapply IH; [exact Hrest|exact Hin|congruence].
Qed.

(** The summary stage, when it returns: the first sample is [numStats], the
    counts by type are reported, and the self-metrics are cleared. *)
Lemma flush_metrics_summary_ok num_stats per_metric timestamp st out st' :
  flush_metrics_summary num_stats per_metric timestamp st = Ok out st' ->
  by_type st' = ∅ /\ process_timings st' = ∅
  /\ In (internal_metrics_prefix (conf st) ++ "numStats",
         Num.of_Z num_stats, timestamp) (concat out)
  /\ (forall metric_type count,
        is_Some (process_timings st !! metric_type) ->
        by_type st !! metric_type = Some count ->
        In (internal_metrics_prefix (conf st) ++ "receive." ++ metric_type
              ++ ".count", Num.of_Z count, timestamp) (concat out)).
Proof.
  unfold flush_metrics_summary. intros Hrun.
  apply bind_ok in Hrun as (st0 & st1 & Hget & Hrun).
  unfold get in Hget. injection Hget as <- <-.
  apply bind_ok in Hrun as ([] & st2 & H2 & Hrun).
  unfold modify in H2. injection H2 as <-.
  apply bind_ok in Hrun as (categories & st3 & H3 & Hrun).
  unchanged_in by_type H3 Hb3.
  unchanged_in process_timings H3 Hp3.
  unchanged_in conf H3 Hc3.
  apply bind_ok in Hrun as ([] & st4 & H4 & Hrun).
  unfold modify in H4. injection H4 as <-.
  apply bind_ok in Hrun as (st5 & st6 & Hget & Hrun).
  unfold get in Hget. injection Hget as <- <-.
  apply bind_ok in Hrun as (types & st7 & H7 & Hrun).
  apply bind_ok in Hrun as ([] & st8 & H8 & Hrun).
  unfold modify in H8. injection H8 as <-.
  apply bind_ok in Hrun as ([] & st9 & H9 & Hrun).
  unfold modify in H9. injection H9 as <-.
  unfold ret in Hrun. injection Hrun as <- <-.
  split; [reflexivity|]. split; [reflexivity|]. split.
  - cbn [concat]. left. reflexivity.
  - intros t count [d Hd] Hcount.
    cbn [concat]. apply in_or_app. right.
    rewrite concat_app. apply in_or_app. right.
    cbn in Hb3, Hp3, Hc3.
    pose proof (for_each_flush_summary_type_ok _ _ _ _ _ H7 t d count) as Hin.
    cbn in Hin. rewrite Hc3, Hb3, Hp3 in Hin. apply Hin; [|exact Hcount].
    apply list_elem_of_In, elem_of_map_to_list, Hd.
Qed.

(** X3: a flush that completes reports, for every type seen since the last
    flush, the count of [by_type] in the line
    [<internal prefix>receive.<type>.count], and leaves [by_type] and
    [process_timings] empty. *)
Theorem flush_reports_and_clears_self_metrics interval percent st out st' :
  flush interval percent st = Ok out st' ->
  by_type st' = ∅ /\ process_timings st' = ∅
  /\ (forall metric_type count,
        is_Some (process_timings st !! metric_type) ->
        by_type st !! metric_type = Some count ->
        In (internal_metrics_prefix (conf st) ++ "receive." ++ metric_type
              ++ ".count", Num.of_Z count,
            Num.int (time_function (conf st) (clock st))) out).
Proof.
  intros Hrun.
  apply flush_inversion in Hrun
    as (g1 & s1 & g2 & s2 & g3 & s3 & g4 & s4 & g5 & s5 & pm & summary
        & H1 & H2 & H3 & H4 & H5 & H6 & ->).
  apply flush_metrics_summary_ok in H6 as (Hby & Hpt & _ & Hreport).
  split; [exact Hby|]. split; [exact Hpt|].
  intros t count Ht Hcount.
  do 5 (apply in_or_app; right).
  assert (Hsame : by_type (tick s5) = by_type st
                  /\ process_timings (tick s5) = process_timings st
                  /\ conf (tick s5) = conf st).
  { unchanged_in by_type H1 Hsame3.
    unchanged_in by_type H2 Hsame4.
    unchanged_in by_type H3 Hsame5.
    unchanged_in by_type H4 Hsame6.
    unchanged_in by_type H5 Hsame7.
    unchanged_in process_timings H1 Hsame8.
    unchanged_in process_timings H2 Hsame9.
    unchanged_in process_timings H3 Hsame10.
    unchanged_in process_timings H4 Hsame11.
    unchanged_in process_timings H5 Hsame12.
    unchanged_in conf H1 Hsame13.
    unchanged_in conf H2 Hsame14.
    unchanged_in conf H3 Hsame15.
    unchanged_in conf H4 Hsame16.
    unchanged_in conf H5 Hsame17.
    cbn in *. repeat split; congruence. }
  destruct Hsame as (Hb & Hp & Hc).
  rewrite Hp, Hb, Hc in Hreport. apply Hreport; assumption.
Qed.

(** *** The number of statistics *)

Lemma flush_timer_groups percent timestamp key timers st out st' :
  flush_timer percent timestamp (key, timers) st = Ok out st' ->
  length out = if (0 <? length timers)%nat then 1%nat else 0%nat.
Proof.
  unfold flush_timer. destruct (0 <? length timers)%nat.
  - intros Hrun.
    apply bind_ok in Hrun as ([] & st1 & _ & Hrun).
    apply bind_ok in Hrun as (stats & st2 & _ & Hrun).
    apply bind_ok in Hrun as (st3 & st4 & _ & Hrun).
    unfold ret in Hrun. injection Hrun as <- _. reflexivity.
  - unfold ret. intros [= <- _]. reflexivity.
Qed.

Lemma for_each_flush_timer_groups percent timestamp l : forall st out st',
  for_each l (flush_timer percent timestamp) st = Ok out st' ->
  length (concat out)
  = length (List.filter (fun entry => (0 <? length (snd entry))%nat) l).
Proof.
  induction l as [|[key timers] l IH]; intros st out st' Hrun;
    cbn [for_each] in Hrun.
  - unfold ret in Hrun. injection Hrun as <- _. reflexivity.
  - apply bind_ok in Hrun as (group & st1 & Hfirst & Hrun).
    apply bind_ok in Hrun as (groups & st2 & Hrest & Hrun).
    unfold ret in Hrun. injection Hrun as <- _.
    apply flush_timer_groups in Hfirst. apply IH in Hrest.
    cbn [concat List.filter snd]. rewrite length_app, Hfirst, Hrest.
    destruct (0 <? length timers)%nat; reflexivity.
Qed.

(** X4: the sample [numStats] of a flush that completes counts one for
    every counter, one for every timer with pending samples, one for every
    gauge, one for every meter and one for every plugin metric. *)
Theorem flush_num_stats interval percent st out st' :
  flush interval percent st = Ok out st' ->
  In (internal_metrics_prefix (conf st) ++ "numStats",
      Num.of_Z
        (Z.of_nat (size (counter_metrics st))
         + Z.of_nat
             (length (List.filter
                        (fun entry => (0 <? length (snd entry))%nat)
                        (map_to_list (timer_metrics st))))
         + Z.of_nat (size (gauge_metrics st))
         + Z.of_nat (size (meter_metrics st))
         + Z.of_nat (size (plugin_metrics st))),
      Num.int (time_function (conf st) (clock st))) out.
Proof.
  intros Hrun.
  apply flush_inversion in Hrun
    as (g1 & s1 & g2 & s2 & g3 & s3 & g4 & s4 & g5 & s5 & pm & summary
        & H1 & H2 & H3 & H4 & H5 & H6 & ->).
  apply flush_metrics_summary_ok in H6 as (_ & _ & Hnum & _).
  do 5 (apply in_or_app; right).
  unchanged_in conf H1 Hc1. unchanged_in conf H2 Hc2.
  unchanged_in conf H3 Hc3. unchanged_in conf H4 Hc4.
  unchanged_in conf H5 Hc5.
  unchanged_in timer_metrics H1 Ht1.
  unchanged_in gauge_metrics H1 Hg1. unchanged_in gauge_metrics H2 Hg2.
  unchanged_in meter_metrics H1 Hm1. unchanged_in meter_metrics H2 Hm2.
  unchanged_in meter_metrics H3 Hm3.
  unchanged_in plugin_metrics H1 Hp1. unchanged_in plugin_metrics H2 Hp2.
  unchanged_in plugin_metrics H3 Hp3. unchanged_in plugin_metrics H4 Hp4.
  assert (Hl1 : length g1 = size (counter_metrics st)).
  { unfold flush_counter_metrics in H1.
    apply bind_ok in H1 as (st0 & st1 & Hget & H1).
    unfold get in Hget. injection Hget as <- <-.
    apply bind_ok in H1 as (groups & st2 & Hloop & H1).
    apply bind_ok in H1 as ([] & st3 & _ & H1).
    unfold ret in H1. injection H1 as <- _.
    apply for_each_length in Hloop. rewrite Hloop.
    apply length_map_to_list. }
  assert (Hl2 : length g2
                = length (List.filter
                            (fun entry => (0 <? length (snd entry))%nat)
                            (map_to_list (timer_metrics st)))).
  { unfold flush_timer_metrics in H2.
    apply bind_ok in H2 as (st0 & st1 & Hget & H2).
    unfold get in Hget. injection Hget as <- <-.
    apply bind_ok in H2 as (groups & st2 & Hloop & H2).
    unfold ret in H2. injection H2 as <- _.
    apply for_each_flush_timer_groups in Hloop. rewrite Hloop.
    cbn in Ht1 |- *. rewrite Ht1. reflexivity. }
  assert (Hl3 : length g3 = size (gauge_metrics st)).
  { rewrite flush_gauge_metrics_run in H3. injection H3 as <- _.
    rewrite length_map, length_map_to_list. cbn in Hg1, Hg2 |- *.
    congruence. }
  assert (Hl4 : length g4 = size (meter_metrics st)).
  { unfold flush_meter_metrics, bind, get, modify, ret in H4.
    injection H4 as <- _.
    rewrite length_map, length_map_to_list, map_size_fmap.
    cbn in Hm1, Hm2, Hm3 |- *. congruence. }
  assert (Hl5 : length g5 = size (plugin_metrics st)).
  { unfold flush_plugin_metrics, bind, get, modify, ret in H5.
    injection H5 as <- _.
    rewrite length_map, length_map_to_list, map_size_fmap.
    cbn in Hp1, Hp2, Hp3, Hp4 |- *. congruence. }
  rewrite Hl1, Hl2, Hl3, Hl4, Hl5 in Hnum.
  cbn in Hc1, Hc2, Hc3, Hc4, Hc5, Hnum.
  replace (conf s5) with (conf st) in Hnum by congruence. exact Hnum.
Qed.

(** *** When a flush returns, and when it raises *)

Lemma bind_run {A B} (m : M A) (k : A -> M B) st a st1 :
  m st = Ok a st1 -> bind m k st = k a st1.
Proof. intros Hm. unfold bind. rewrite Hm. reflexivity. Qed.

Lemma bind_raise {A B} (m : M A) (k : A -> M B) st e st1 :
  m st = Raise e st1 -> bind m k st = Raise e st1.
Proof. intros Hm. unfold bind. rewrite Hm. reflexivity. Qed.

Lemma flush_category_run metrics st groups st1 :
  metrics (tick st) = Ok groups st1 ->
  flush_category metrics st
  = Ok (concat groups,
        (Z.of_nat (length groups),
         Num.sub (Num.Finite (time_function (conf st1) (clock st1)))
                 (Num.Finite (time_function (conf st) (clock st)))))
       (tick st1).
Proof.
  intros Hm. unfold flush_category.
  rewrite (bind_run _ _ _ _ _ (call_time_function_run st)).
  rewrite (bind_run _ _ _ _ _ Hm).
  rewrite (bind_run _ _ _ _ _ (call_time_function_run st1)).
  reflexivity.
Qed.

Lemma for_each_returns {A B} (l : list A) (body : A -> M B) :
  (forall x st, In x l -> exists y st', body x st = Ok y st') ->
  forall st, exists out st', for_each l body st = Ok out st'.
Proof.
  induction l as [|x l IH]; intros Hbody st; cbn [for_each].
  - eexists _, _. reflexivity.
  - destruct (Hbody x st) as (y & st1 & Hy); [left; reflexivity|].
    rewrite (bind_run _ _ _ _ _ Hy).
    destruct (IH (fun x st Hin => Hbody x st (or_intror Hin)) st1)
      as (ys & st2 & Hys).
    rewrite (bind_run _ _ _ _ _ Hys). eexists _, _. reflexivity.
Qed.

(** With a threshold from 26 to 100 the statistics of every timer with
    samples are computed. *)
Lemma compute_timer_stats_returns percent samples st :
  (26 <= percent <= 100)%Z -> samples <> [] ->
  exists stats, compute_timer_stats percent samples st = Ok stats st.
Proof.
  intros Hp Hne. destruct samples as [|x [|y rest]]; [congruence| |].
  - eexists. apply compute_timer_stats_one.
  - eexists. apply compute_timer_stats_many.
    + cbn. lia.
    + apply trim_index_range; [exact Hp|]. cbn [length]. lia.
Qed.

Lemma flush_timer_returns percent timestamp entry st :
  (26 <= percent <= 100)%Z ->
  exists out st', flush_timer percent timestamp entry st = Ok out st'.
Proof.
  intros Hp. destruct entry as [key timers]. unfold flush_timer.
  destruct (0 <? length timers)%nat eqn:Hlen; [|eexists _, _; reflexivity].
  unfold bind at 1. unfold modify at 1.
  destruct (compute_timer_stats_returns percent timers
              (set_timer_metrics (<[key:=[]]> (timer_metrics st)) st) Hp)
    as (stats & Hstats).
  { intros ->. discriminate Hlen. }
  rewrite (bind_run _ _ _ _ _ Hstats). eexists _, _. reflexivity.
Qed.

Lemma flush_timer_metrics_returns percent timestamp st :
  (26 <= percent <= 100)%Z ->
  exists out st', flush_timer_metrics percent timestamp st = Ok out st'.
Proof.
  intros Hp. unfold flush_timer_metrics, bind at 1, get.
  destruct (for_each_returns (map_to_list (timer_metrics st))
              (flush_timer percent timestamp)
              (fun x st _ => flush_timer_returns percent timestamp x st Hp)
              st) as (out & st' & Hloop).
  rewrite (bind_run _ _ _ _ _ Hloop). eexists _, _. reflexivity.
Qed.

Lemma flush_summary_category_returns timestamp entry st :
  exists out st', flush_summary_category timestamp entry st = Ok out st'.
Proof. destruct entry as [name [value duration]]. eexists _, _. reflexivity. Qed.

Lemma for_each_flush_summary_type_returns timestamp l : forall st,
  (forall metric_type duration,
     In (metric_type, duration) l -> is_Some (by_type st !! metric_type)) ->
  exists out st',
    for_each l (flush_summary_type timestamp) st = Ok out st'.
Proof.
  induction l as [|[t d] l IH]; intros st Hl; cbn [for_each].
  - eexists _, _. reflexivity.
  - destruct (Hl t d) as [count Hcount]; [left; reflexivity|].
    assert (Hfirst : exists out st1,
              flush_summary_type timestamp (t, d) st = Ok out st1).
    { unfold flush_summary_type, bind, get. rewrite Hcount.
      eexists _, _. reflexivity. }
    destruct Hfirst as (out & st1 & Hfirst).
    rewrite (bind_run _ _ _ _ _ Hfirst).
    apply flush_summary_type_ok in Hfirst as (Hby & _).
    destruct (IH st1) as (outs & st2 & Hrest).
    { intros t' d' Hin. rewrite Hby. apply (Hl t' d'). right. exact Hin. }
    rewrite (bind_run _ _ _ _ _ Hrest). eexists _, _. reflexivity.
Qed.

Lemma flush_metrics_summary_returns num_stats per_metric timestamp st :
  (forall metric_type,
     is_Some (process_timings st !! metric_type) ->
     is_Some (by_type st !! metric_type)) ->
  exists out st',
    flush_metrics_summary num_stats per_metric timestamp st = Ok out st'.
Proof.
  intros Hagree. unfold flush_metrics_summary.
  unfold bind at 1, get. unfold bind at 1, modify at 1.
  destruct (for_each_returns (map_to_list per_metric)
              (flush_summary_category timestamp)
              (fun x st _ => flush_summary_category_returns timestamp x st)
              (set_last_flush_duration (Num.Finite 0) st))
    as (cats & st1 & Hcats).
  rewrite (bind_run _ _ _ _ _ Hcats).
  unchanged_in by_type Hcats Hby. unchanged_in process_timings Hcats Hpt.
  unfold bind at 1, modify at 1. unfold bind at 1, get.
  destruct (for_each_flush_summary_type_returns timestamp
              (map_to_list
                 (process_timings
                    (set_last_process_duration (Num.Finite 0) st1)))
              (set_last_process_duration (Num.Finite 0) st1))
    as (types & st2 & Htypes).
  { intros t d Hin. apply list_elem_of_In, elem_of_map_to_list in Hin.
    cbn in Hin, Hby, Hpt |- *. rewrite Hby. apply Hagree.
    rewrite <- Hpt. eauto. }
  rewrite (bind_run _ _ _ _ _ Htypes). eexists _, _. reflexivity.
Qed.

Lemma flush_meter_metrics_returns timestamp st :
  exists out st', flush_meter_metrics timestamp st = Ok out st'.
Proof.
  unfold flush_meter_metrics, bind, get, modify, ret. eexists _, _.
  reflexivity.
Qed.

Lemma flush_plugin_metrics_returns interval timestamp st :
  exists out st', flush_plugin_metrics interval timestamp st = Ok out st'.
Proof.
  unfold flush_plugin_metrics, bind, get, modify, ret. eexists _, _.
  reflexivity.
Qed.

(** X5: a flush completes when its interval is of at least one second, so
    that [interval / 1000] is not zero, its threshold is from 26 to 100, and
    [by_type] has an entry for every type of [process_timings]. *)
Theorem flush_completes interval percent st :
  (interval / 1000 <> 0)%Z -> (26 <= percent <= 100)%Z ->
  (forall metric_type,
     is_Some (process_timings st !! metric_type) ->
     is_Some (by_type st !! metric_type)) ->
  exists out st', flush interval percent st = Ok out st'.
Proof.
  intros Hi Hp Hagree. unfold flush.
  rewrite (bind_run _ _ _ _ _ (call_time_function_run st)).
  set (timestamp := Num.int (time_function (conf st) (clock st))).
  pose proof (flush_counter_metrics_run (interval / 1000) timestamp
                (tick (tick st)) Hi) as H1.
  rewrite (bind_run _ _ _ _ _ (flush_category_run _ _ _ _ H1)).
  match type of H1 with _ = Ok _ ?s => set (s1 := s) in * end.
  destruct (flush_timer_metrics_returns percent timestamp
              (tick (tick s1)) Hp) as (g2 & s2 & H2).
  rewrite (bind_run _ _ _ _ _ (flush_category_run _ _ _ _ H2)).
  pose proof (flush_gauge_metrics_run timestamp (tick (tick s2))) as H3.
  rewrite (bind_run _ _ _ _ _ (flush_category_run _ _ _ _ H3)).
  destruct (flush_meter_metrics_returns timestamp
              (tick (tick (tick (tick s2))))) as (g4 & s4 & H4).
  rewrite (bind_run _ _ _ _ _ (flush_category_run _ _ _ _ H4)).
  destruct (flush_plugin_metrics_returns (interval / 1000) timestamp
              (tick (tick s4))) as (g5 & s5 & H5).
  rewrite (bind_run _ _ _ _ _ (flush_category_run _ _ _ _ H5)).
  cbn zeta.
  match goal with
  | |- context [flush_metrics_summary ?n ?pm ?ts] =>
      destruct (flush_metrics_summary_returns n pm ts (tick s5))
        as (summary & st' & H6)
  end.
  { unchanged_in by_type H2 Hb2. unchanged_in process_timings H2 Hp2.
    unchanged_in by_type H4 Hb4. unchanged_in process_timings H4 Hp4.
    unchanged_in by_type H5 Hb5. unchanged_in process_timings H5 Hp5.
    cbn in Hb2, Hp2, Hb4, Hp4, Hb5, Hp5 |- *.
    intros t. rewrite Hb5, Hp5, Hb4, Hp4, Hb2, Hp2. apply Hagree. }
  rewrite (bind_run _ _ _ _ _ H6). eexists _, _. reflexivity.
Qed.

(** X6: a flush with an interval from 0 to 999 milliseconds, for which
    [interval / 1000] is zero, raises [ZeroDivisionError] as soon as there
    is a counter, and the counter it was at has already been set to zero. *)
Theorem flush_short_interval_raises interval percent st :
  (0 <= interval < 1000)%Z -> counter_metrics st <> ∅ ->
  exists key count st',
    counter_metrics st !! key = Some count
    /\ flush interval percent st = Raise ZeroDivisionError st'
    /\ counter_metrics st' = <[key := Num.Finite 0]> (counter_metrics st).
Proof.
  intros Hi Hne.
  destruct (map_to_list (counter_metrics st)) as [|[key count] l] eqn:Hl.
  { apply map_to_list_empty_iff in Hl. congruence. }
  exists key, count,
    (set_counter_metrics (<[key := Num.Finite 0]> (counter_metrics st))
                         (tick (tick st))).
  split; [apply elem_of_map_to_list; rewrite Hl; left|].
  split; [|reflexivity].
  unfold flush. rewrite Z.div_small by exact Hi.
  rewrite (bind_run _ _ _ _ _ (call_time_function_run st)).
  apply bind_raise. unfold flush_category.
  rewrite (bind_run _ _ _ _ _ (call_time_function_run (tick st))).
  apply bind_raise. unfold flush_counter_metrics, bind at 1, get.
  apply bind_raise. cbn [tick counter_metrics set_clock]. rewrite Hl.
  cbn [for_each]. apply bind_raise. reflexivity.
Qed.

End FlushState.

(** ** Invariants of the processor *)

Section Invariants.

Context `{Reporters}.

Local Open Scope proc_scope.

Lemma maintains_bind {A B} (I : processor -> Prop) (m : M A) (k : A -> M B) :
  maintains I m -> (forall a, maintains I (k a)) -> maintains I (bind m k).
Proof.
  intros Hm Hk st Hst. unfold bind. specialize (Hm st Hst).
  destruct (m st) as [a st1|e st1]; [|exact Hm].
  exact (Hk a st1 Hm).
Qed.

Lemma maintains_modify (I : processor -> Prop) f :
  (forall st, I st -> I (f st)) -> maintains I (modify f).
Proof. intros Hf st Hst. exact (Hf st Hst). Qed.

(** The self-metrics of a state are those of another one. *)
Lemma self_metrics_agree_same st st' :
  by_type st' = by_type st -> process_timings st' = process_timings st ->
  self_metrics_agree st -> self_metrics_agree st'.
Proof.
  intros Hby Hpt Hst t. unfold self_metrics_agree in Hst.
  rewrite Hby, Hpt. apply Hst.
Qed.

Lemma agree_unchanged {A} (m : M A) :
  unchanged by_type m -> unchanged process_timings m ->
  maintains self_metrics_agree m.
Proof.
  intros Hby Hpt st Hst. specialize (Hby st). specialize (Hpt st).
  destruct (m st) as [a st'|e st'];
    eapply self_metrics_agree_same; eassumption.
Qed.

Lemma process_message_agree message metric_type key fields :
  maintains self_metrics_agree
            (process_message message metric_type key fields).
Proof.
  unfold process_message.
  apply maintains_bind; [apply agree_unchanged; unchanged_steps|intros start].
  apply maintains_bind; [apply agree_unchanged; unchanged_steps|intros st0].
  apply maintains_bind; [apply agree_unchanged; unchanged_steps|intros known].
  destruct known; [|apply agree_unchanged; unchanged_steps].
  intros st Hst. cbn. intros t.
  unfold setdefault_add, set_by_type, set_process_timings, set_clock.
  cbn [process_timings by_type].
  rewrite !lookup_insert_is_Some. specialize (Hst t). tauto.
Qed.

(** X7: [process_timings] and [by_type] always have the same keys: they do
    in a new processor, every call of [process] keeps it so whether it
    returns or raises, and after a flush that completes both are empty. *)
Theorem self_metrics_always_agree :
  (forall clock plugins legacy_namespace message_prefix
          internal_metrics_prefix delete_idle_counters lightweight_mode,
     self_metrics_agree
       (MessageProcessor clock plugins legacy_namespace message_prefix
                         internal_metrics_prefix delete_idle_counters
                         lightweight_mode))
  /\ (forall message, maintains self_metrics_agree (process message))
  /\ (forall interval percent st out st',
        flush interval percent st = Ok out st' -> self_metrics_agree st').
Proof.
  split; [|split].
  - intros. intros t. cbn. rewrite !lookup_empty.
    split; intros [? Hx]; discriminate Hx.
  - intros message. unfold process.
    destruct (negb (Str.contains ":" message));
      [apply agree_unchanged; unchanged_steps|].
    destruct (Str.split1 ":" (Str.strip message)) as [key [data|]];
      [|apply agree_unchanged; unchanged_steps].
    destruct (negb (Str.contains "|" data));
      [apply agree_unchanged; unchanged_steps|].
    destruct (_ || _)%bool; [apply agree_unchanged; unchanged_steps|].
    apply maintains_bind; [apply agree_unchanged; unchanged_steps|intros t].
    apply process_message_agree.
  - intros interval percent st out st' Hrun.
    apply flush_inversion in Hrun
      as (g1 & s1 & g2 & s2 & g3 & s3 & g4 & s4 & g5 & s5 & pm & summary
          & _ & _ & _ & _ & _ & H6 & _).
    apply flush_metrics_summary_ok in H6 as (Hby & Hpt & _).
    intros t. rewrite Hby, Hpt, !lookup_empty.
    split; intros [? Hx]; discriminate Hx.
Qed.

End Invariants.

(** ** The names of the metrics *)

Section Names.

Context `{Reporters}.

Local Open Scope proc_scope.

Lemma adds_bind {A B} key (m : M A) (k : A -> M B) :
  adds_at_most key m -> (forall a, adds_at_most key (k a)) ->
  adds_at_most key (bind m k).
Proof.
  intros Hm Hk st. unfold bind. specialize (Hm st).
  destruct (m st) as [a st1|e st1]; [|exact Hm].
  specialize (Hk a st1).
  destruct (k a st1) as [b st2|e st2]; set_solver.
Qed.

Lemma adds_unchanged {A} key (m : M A) :
  unchanged metric_names m -> adds_at_most key m.
Proof.
  intros Hm st. specialize (Hm st).
  destruct (m st) as [a st'|e st']; rewrite Hm; set_solver.
Qed.

Lemma adds_modify key f :
  (forall st, metric_names (f st) ⊆ {[key]} ∪ metric_names st) ->
  adds_at_most key (modify f).
Proof. intros Hf st. apply Hf. Qed.

Lemma adds_compose_counter_metric key value rate :
  adds_at_most key (compose_counter_metric key value rate).
Proof.
  intros st. unfold compose_counter_metric, bind, get, modify, ret, raise.
  assert (Hins : forall x : Num.float,
            dom (<[key := x]> (counter_metrics st))
            ⊆ {[key]} ∪ dom (counter_metrics st))
    by (intros x; rewrite dom_insert_L; set_solver).
  destruct (counter_metrics st !! key) eqn:Hk; cbn;
    destruct rate as [n|s]; cbn;
    try destruct (Num.float_of_string s); cbn;
    try match goal with |- context [Num.is_zero ?r] =>
          destruct (Num.is_zero r) end;
    cbn; unfold metric_names; cbn;
    rewrite ?insert_insert_eq;
    try (pose proof (Hins (Num.Finite 0)));
    try match goal with |- context [<[key := ?x]> (counter_metrics st)] =>
          pose proof (Hins x) end;
    set_solver.
Qed.

End Names.

(** The routine steps of a proof that a call adds at most one name. *)
Ltac adds_steps :=
  repeat first
    [ match goal with
      | |- adds_at_most _ (bind _ _) => apply adds_bind; [|intros ?]
      | |- adds_at_most _ (compose_counter_metric _ _ _) =>
          apply adds_compose_counter_metric
      | |- adds_at_most _ (modify _) =>
          apply adds_modify; intros ?; unfold metric_names; cbn;
          rewrite ?dom_insert_L; set_solver
      | |- adds_at_most _ (if ?b then _ else _) => destruct b
      | |- adds_at_most _ (match ?x with _ => _ end) => destruct x
      | |- adds_at_most _ _ =>
          apply adds_unchanged; solve [unchanged_steps]
      end
    | progress unfold process_message, process_counter_metric,
        process_timer_metric, compose_timer_metric, process_gauge_metric,
        compose_gauge_metric, process_meter_metric, compose_meter_metric,
        process_plugin_metric ].

Section NamesOfProcess.

Context `{Reporters}.

Local Open Scope proc_scope.

Lemma adds_process_message message metric_type key fields :
  adds_at_most key (process_message message metric_type key fields).
Proof. adds_steps. Qed.

Lemma adds_process message :
  adds_at_most (normalize_key (fst (Str.split1 ":" (Str.strip message))))
               (process message).
Proof.
  unfold process.
  destruct (negb (Str.contains ":" message));
    [apply adds_unchanged; unchanged_steps|].
  destruct (Str.split1 ":" (Str.strip message)) as [key [data|]];
    [|apply adds_unchanged; unchanged_steps].
  destruct (negb (Str.contains "|" data));
    [apply adds_unchanged; unchanged_steps|].
  destruct (_ || _)%bool; [apply adds_unchanged; unchanged_steps|].
  apply adds_bind; [apply adds_unchanged; unchanged_steps|intros t].
  apply adds_process_message.
Qed.

Lemma keys_normalized_within key st st' :
  Str.all Chars.is_key_char key = true ->
  metric_names st' ⊆ {[key]} ∪ metric_names st ->
  keys_normalized st -> keys_normalized st'.
Proof.
  intros Hkey Hsub Hst k Hk. apply Hsub in Hk.
  apply elem_of_union in Hk as [Hk|Hk].
  - apply elem_of_singleton in Hk. subst k. exact Hkey.
  - apply Hst, Hk.
Qed.

(** X8: a call of [process], whether it returns or raises, adds at most one
    name to the names of the metrics, the normalized key of the message; so
    the keys of the accumulator maps, none in a new processor, are always
    normalized: made of bytes of [A-Za-z0-9._-]. *)
Theorem process_adds_one_normalized_name :
  (forall message,
     adds_at_most (normalize_key (fst (Str.split1 ":" (Str.strip message))))
                  (process message))
  /\ (forall message, maintains keys_normalized (process message))
  /\ (forall clock plugins legacy_namespace message_prefix
             internal_metrics_prefix delete_idle_counters lightweight_mode,
        metric_names
          (MessageProcessor clock plugins legacy_namespace message_prefix
                            internal_metrics_prefix delete_idle_counters
                            lightweight_mode) = ∅).
Proof.
  split; [exact adds_process|]. split.
  - intros message st Hst. pose proof (adds_process message st) as Hadd.
    destruct (process message st) as [a st'|e st'];
      (eapply keys_normalized_within;
       [apply normalize_key_chars|exact Hadd|exact Hst]).
  - intros. unfold metric_names. cbn. rewrite !dom_empty_L. set_solver.
Qed.

(** The state a flush that returned leaves. *)
Lemma flush_final_state interval percent st out st' :
  flush interval percent st = Ok out st' ->
  let timestamp := Num.int (time_function (conf st) (clock st)) in
  counter_metrics st'
  = (if delete_idle_counters (conf st) then ∅
     else (fun _ => Num.Finite 0) <$> counter_metrics st)
  /\ timer_metrics st' = (fun _ => []) <$> timer_metrics st
  /\ gauge_metrics st' = gauge_metrics st
  /\ meter_metrics st'
     = (fun metric => fst (meter_report timestamp metric))
       <$> meter_metrics st
  /\ plugin_metrics st'
     = (fun metric => fst (plugin_flush (interval / 1000) timestamp metric))
       <$> plugin_metrics st.
Proof.
  intros Hrun timestamp.
  apply flush_inversion in Hrun
    as (g1 & s1 & g2 & s2 & g3 & s3 & g4 & s4 & g5 & s5 & pm & summary
        & H1 & H2 & H3 & H4 & H5 & H6 & _).
  fold timestamp in H1, H2, H3, H4, H5, H6.
  split; [|split; [|split; [|split]]].
  - unchanged_in counter_metrics H2 E2. unchanged_in counter_metrics H3 E3.
    unchanged_in counter_metrics H4 E4. unchanged_in counter_metrics H5 E5.
    unchanged_in counter_metrics H6 E6.
    apply flush_counter_metrics_ok in H1 as [E1 _].
    cbn in *. congruence.
  - unchanged_in timer_metrics H1 E1. apply flush_timer_metrics_ok in H2.
    unchanged_in timer_metrics H3 E3. unchanged_in timer_metrics H4 E4.
    unchanged_in timer_metrics H5 E5. unchanged_in timer_metrics H6 E6.
    cbn in *. congruence.
  - unchanged_in gauge_metrics H1 E1. unchanged_in gauge_metrics H2 E2.
    unchanged_in gauge_metrics H3 E3. unchanged_in gauge_metrics H4 E4.
    unchanged_in gauge_metrics H5 E5. unchanged_in gauge_metrics H6 E6.
    cbn in *. congruence.
  - unchanged_in meter_metrics H1 E1. unchanged_in meter_metrics H2 E2.
    unchanged_in meter_metrics H3 E3. unchanged_in meter_metrics H5 E5.
    unchanged_in meter_metrics H6 E6.
    unfold flush_meter_metrics, bind, get, modify, ret in H4.
    injection H4 as _ <-. cbn in *.
    rewrite E6, E5. cbn. rewrite <- map_fmap_compose, E3, E2, E1.
    reflexivity.
  - unchanged_in plugin_metrics H1 E1. unchanged_in plugin_metrics H2 E2.
    unchanged_in plugin_metrics H3 E3. unchanged_in plugin_metrics H4 E4.
    unchanged_in plugin_metrics H6 E6.
    unfold flush_plugin_metrics, bind, get, modify, ret in H5.
    injection H5 as _ <-. cbn in *.
    rewrite E6. cbn. rewrite <- map_fmap_compose, E4, E3, E2, E1.
    reflexivity.
Qed.

(** X9: a flush that completes adds no name to the names of the metrics,
    and removes none unless [delete_idle_counters] is set; then the names
    that were counters only are gone. *)
Theorem flush_keeps_names interval percent st out st' :
  flush interval percent st = Ok out st' ->
  metric_names st'
  = (if delete_idle_counters (conf st)
     then dom (timer_metrics st) ∪ dom (gauge_metrics st)
          ∪ dom (meter_metrics st) ∪ dom (plugin_metrics st)
     else metric_names st).
Proof.
  intros Hrun.
  apply flush_final_state in Hrun as (Ec & Et & Eg & Em & Ep).
  unfold metric_names. rewrite Ec, Et, Eg, Em, Ep, !dom_fmap_L.
  destruct (delete_idle_counters (conf st)).
  - rewrite dom_empty_L. set_solver.
  - rewrite dom_fmap_L. reflexivity.
Qed.

End NamesOfProcess.

(** ** Gauges and timers as they come in *)

Section IngestRest.

Context `{Reporters}.

Local Open Scope proc_scope.

Lemma process_gauge_metric_parsed key value v message st :
  Str.split ":" value = [value] ->
  Num.float_of_string value = Num.Parsed v ->
  process_gauge_metric key value message st
  = Ok tt (set_gauge_metrics (<[key := v]> (gauge_metrics st)) st).
Proof.
  intros Hs Hv. unfold process_gauge_metric. rewrite Hs, Hv. reflexivity.
Qed.

Lemma process_gauge_metric_several key value message st :
  length (Str.split ":" value) <> 1%nat ->
  process_gauge_metric key value message st = fail message st.
Proof.
  intros Hl. unfold process_gauge_metric.
  destruct (Str.split ":" value) as [|v [|w values]];
    [reflexivity|cbn in Hl; congruence|reflexivity].
Qed.

(** X10: a gauge message whose single value parses, be it a number, an
    infinity or a NaN, puts the value at the normalized key in
    [gauge_metrics], in the place of the one before, leaves the other
    accumulators as they were, logs nothing and is counted in [by_type]; a
    gauge message with several values separated by colons is logged and
    dropped, and counted too. *)
Theorem gauge_overwrites :
  (forall message key value rest v st,
     well_shaped message key (value :: rest) "g" ->
     Str.split ":" value = [value] ->
     Num.float_of_string value = Num.Parsed v ->
     exists st',
       process message st = Ok tt st'
       /\ gauge_metrics st' = <[normalize_key key := v]> (gauge_metrics st)
       /\ timer_metrics st' = timer_metrics st
       /\ counter_metrics st' = counter_metrics st
       /\ meter_metrics st' = meter_metrics st
       /\ plugin_metrics st' = plugin_metrics st
       /\ log st' = log st
       /\ by_type st' !! "g" = Some (default 0 (by_type st !! "g") + 1)%Z)
  /\ (forall message key value rest st,
        well_shaped message key (value :: rest) "g" ->
        length (Str.split ":" value) <> 1%nat ->
        exists st',
          process message st = Ok tt st'
          /\ same_accumulators st st'
          /\ log st' = (log st ++ [BadLine message])%list
          /\ by_type st' !! "g" = Some (default 0 (by_type st !! "g") + 1)%Z).
Proof.
  split.
  - intros message key value rest v st Hw Hs Hv.
    rewrite (process_well_shaped _ _ _ _ _ Hw), process_message_gauge.
    unfold around. rewrite (process_gauge_metric_parsed _ _ v) by assumption.
    eexists. split; [reflexivity|].
    repeat (split; [reflexivity|]).
    cbn. unfold setdefault_add. apply lookup_insert_eq.
  - intros message key value rest st Hw Hl.
    rewrite (process_well_shaped _ _ _ _ _ Hw), process_message_gauge.
    unfold around. rewrite process_gauge_metric_several by assumption.
    rewrite fail_run. eexists. split; [reflexivity|].
    split; [repeat split|]. split; [reflexivity|].
    cbn. unfold setdefault_add. apply lookup_insert_eq.
Qed.

(** X11: a timer message whose value parses, be it a number, an infinity or
    a NaN, appends the value to the samples of the normalized key in
    [timer_metrics], a key without samples starting from the empty list,
    whatever comes in a third field; it leaves the other accumulators as
    they were, logs nothing and is counted in [by_type]. *)
Theorem timer_appends message key value rest v st :
  well_shaped message key (value :: rest) "ms" ->
  Num.float_of_string value = Num.Parsed v ->
  exists st',
    process message st = Ok tt st'
    /\ timer_metrics st'
       = <[normalize_key key :=
             (default [] (timer_metrics st !! normalize_key key) ++ [v])%list]>
           (timer_metrics st)
    /\ counter_metrics st' = counter_metrics st
    /\ gauge_metrics st' = gauge_metrics st
    /\ meter_metrics st' = meter_metrics st
    /\ plugin_metrics st' = plugin_metrics st
    /\ log st' = log st
    /\ by_type st' !! "ms" = Some (default 0 (by_type st !! "ms") + 1)%Z.
Proof.
  intros Hw Hv.
  rewrite (process_well_shaped _ _ _ _ _ Hw), process_message_timer.
  unfold around. rewrite (process_timer_metric_parsed _ _ v) by assumption.
  eexists. split; [reflexivity|].
  repeat (split; [reflexivity|]).
  cbn. unfold setdefault_add. apply lookup_insert_eq.
Qed.

End IngestRest.

(** ** The theorems above, at a processor that received messages *)

Lemma busy_processor_flushes :
  exists out st', flush 10000 90 busy_processor = Ok out st'.
Proof. eexists _, _. vm_compute. reflexivity. Qed.

Lemma flush_empties_timers_witness :
  exists out st',
    flush 10000 90 busy_processor = Ok out st'
    /\ timer_metrics st' = (fun _ => []) <$> timer_metrics busy_processor.
Proof.
  destruct busy_processor_flushes as (out & st' & Hflush).
  exists out, st'. split; [exact Hflush|].
  exact (flush_empties_timers 10000 90 busy_processor out st' Hflush).
Defined.

Lemma flush_keeps_gauges_witness :
  exists out st',
    flush 10000 90 busy_processor = Ok out st'
    /\ gauge_metrics st' = gauge_metrics busy_processor
    /\ conf st' = conf busy_processor
    /\ (forall key value,
          gauge_metrics busy_processor !! key = Some value ->
          In (gauge_prefix (conf busy_processor) ++ key ++ ".value", value,
              Num.int (time_function (conf busy_processor)
                                     (clock busy_processor))) out).
Proof.
  destruct busy_processor_flushes as (out & st' & Hflush).
  exists out, st'. split; [exact Hflush|].
  exact (flush_keeps_gauges 10000 90 busy_processor out st' Hflush).
Defined.

Lemma flush_reports_and_clears_self_metrics_witness :
  exists out st',
    flush 10000 90 busy_processor = Ok out st'
    /\ by_type st' = ∅ /\ process_timings st' = ∅
    /\ (forall metric_type count,
          is_Some (process_timings busy_processor !! metric_type) ->
          by_type busy_processor !! metric_type = Some count ->
          In (internal_metrics_prefix (conf busy_processor) ++ "receive."
                ++ metric_type ++ ".count", Num.of_Z count,
              Num.int (time_function (conf busy_processor)
                                     (clock busy_processor))) out).
Proof.
  destruct busy_processor_flushes as (out & st' & Hflush).
  exists out, st'. split; [exact Hflush|].
  exact (flush_reports_and_clears_self_metrics 10000 90 busy_processor out
           st' Hflush).
Defined.

Lemma flush_num_stats_witness :
  exists out st',
    flush 10000 90 busy_processor = Ok out st'
    /\ In (internal_metrics_prefix (conf busy_processor) ++ "numStats",
           Num.of_Z
             (Z.of_nat (size (counter_metrics busy_processor))
              + Z.of_nat
                  (length (List.filter
                             (fun entry => (0 <? length (snd entry))%nat)
                             (map_to_list (timer_metrics busy_processor))))
              + Z.of_nat (size (gauge_metrics busy_processor))
              + Z.of_nat (size (meter_metrics busy_processor))
              + Z.of_nat (size (plugin_metrics busy_processor))),
           Num.int (time_function (conf busy_processor)
                                  (clock busy_processor))) out.
Proof.
  destruct busy_processor_flushes as (out & st' & Hflush).
  exists out, st'. split; [exact Hflush|].
  exact (flush_num_stats 10000 90 busy_processor out st' Hflush).
Defined.

Lemma flush_completes_witness :
  exists out st', flush 10000 90 busy_processor = Ok out st'.
Proof.
  apply (flush_completes 10000 90 busy_processor).
  - vm_compute. discriminate.
  - lia.
  - intros metric_type [duration Hduration].
    assert (Hcases : metric_type = "c" \/ metric_type = "ms"
                     \/ metric_type = "g").
    { apply elem_of_map_to_list in Hduration.
      vm_compute in Hduration.
      repeat (apply elem_of_cons in Hduration as [Hduration|Hduration];
              [injection Hduration as -> _; tauto|]).
      apply not_elem_of_nil in Hduration. destruct Hduration. }
    destruct Hcases as [-> | [-> | ->]]; eexists; vm_compute; reflexivity.
Defined.

Lemma flush_short_interval_raises_witness :
  exists key count st',
    counter_metrics busy_processor !! key = Some count
    /\ flush 999 90 busy_processor = Raise ZeroDivisionError st'
    /\ counter_metrics st'
       = <[key := Num.Finite 0]> (counter_metrics busy_processor).
Proof.
  apply (flush_short_interval_raises 999 90 busy_processor).
  - lia.
  - intros Hempty.
    assert (Ha : counter_metrics busy_processor !! "a"
                 = Some (Num.Finite 10))
      by (vm_compute; reflexivity).
    rewrite Hempty, lookup_empty in Ha. discriminate Ha.
Defined.

Lemma self_metrics_always_agree_witness :
  match process "load:nan|g" busy_processor with
  | Ok _ st' => self_metrics_agree st'
  | Raise _ st' => self_metrics_agree st'
  end.
Proof.
  apply (proj1 (proj2 self_metrics_always_agree) "load:nan|g"
               busy_processor).
  intros metric_type.
  assert (Hkeys : forall t : string,
            t ∈ ["c"; "ms"; "g"] ->
            is_Some (process_timings busy_processor !! t)
            /\ is_Some (by_type busy_processor !! t)).
  { intros t Ht. repeat (apply elem_of_cons in Ht as [-> | Ht];
      [split; eexists; vm_compute; reflexivity|]).
    apply not_elem_of_nil in Ht. destruct Ht. }
  assert (Hdom : forall t : string,
            is_Some (process_timings busy_processor !! t)
            \/ is_Some (by_type busy_processor !! t) ->
            t ∈ ["c"; "ms"; "g"]).
  { intros t [[x Hx]|[x Hx]]; apply elem_of_map_to_list in Hx;
      vm_compute in Hx;
      repeat (apply elem_of_cons in Hx as [Hx|Hx];
              [injection Hx as -> _; repeat constructor|]);
      apply not_elem_of_nil in Hx; destruct Hx. }
  split; intros Hsome.
  - apply Hkeys, Hdom. left. exact Hsome.
  - apply Hkeys, Hdom. right. exact Hsome.
Defined.

Lemma process_adds_one_normalized_name_witness :
  match process "a b:inf|c" busy_processor with
  | Ok _ st' => keys_normalized st'
  | Raise _ st' => keys_normalized st'
  end.
Proof.
  apply (proj1 (proj2 process_adds_one_normalized_name) "a b:inf|c"
               busy_processor).
  intros key Hkey.
  assert (Hnames : metric_names busy_processor = {["a"; "orders"; "load"]}).
  { apply set_eq. intros k. unfold metric_names.
    rewrite !elem_of_union, !elem_of_dom.
    assert (Hin : forall (A : Type) (m : gmap string A) l,
              map_to_list m = l ->
              is_Some (m !! k) <-> k ∈ l.*1).
    { intros A m l <-. split.
      - intros [x Hx]. apply list_elem_of_fmap. exists (k, x).
        split; [reflexivity|]. apply elem_of_map_to_list, Hx.
      - intros Hk. apply list_elem_of_fmap in Hk as ([k' x] & -> & Hk).
        exists x. apply elem_of_map_to_list, Hk. }
    rewrite (Hin _ (timer_metrics busy_processor) _ eq_refl).
    rewrite (Hin _ (counter_metrics busy_processor) _ eq_refl).
    rewrite (Hin _ (gauge_metrics busy_processor) _ eq_refl).
    rewrite (Hin _ (meter_metrics busy_processor) _ eq_refl).
    rewrite (Hin _ (plugin_metrics busy_processor) _ eq_refl).
    vm_compute map_to_list. cbn [fmap list_fmap fst].
    clear. set_solver. }
  rewrite Hnames in Hkey.
  repeat (apply elem_of_union in Hkey as [Hkey|Hkey]);
    apply elem_of_singleton in Hkey; subst key; reflexivity.
Defined.

Lemma flush_keeps_names_witness :
  exists out st',
    flush 10000 90 busy_processor = Ok out st'
    /\ metric_names st'
       = (if delete_idle_counters (conf busy_processor)
          then dom (timer_metrics busy_processor)
               ∪ dom (gauge_metrics busy_processor)
               ∪ dom (meter_metrics busy_processor)
               ∪ dom (plugin_metrics busy_processor)
          else metric_names busy_processor).
Proof.
  destruct busy_processor_flushes as (out & st' & Hflush).
  exists out, st'. split; [exact Hflush|].
  exact (flush_keeps_names 10000 90 busy_processor out st' Hflush).
Defined.

(** [gauge_overwrites] for a gauge that is set to NaN. *)
Lemma gauge_overwrites_witness :
  exists st',
    process "load:nan|g" busy_processor = Ok tt st'
    /\ gauge_metrics st'
       = <[normalize_key "load" := Num.NaN]> (gauge_metrics busy_processor)
    /\ timer_metrics st' = timer_metrics busy_processor
    /\ counter_metrics st' = counter_metrics busy_processor
    /\ meter_metrics st' = meter_metrics busy_processor
    /\ plugin_metrics st' = plugin_metrics busy_processor
    /\ log st' = log busy_processor
    /\ by_type st' !! "g"
       = Some (default 0 (by_type busy_processor !! "g") + 1)%Z.
Proof.
  apply (proj1 gauge_overwrites "load:nan|g" "load" "nan" ["g"] Num.NaN
               busy_processor).
  - exists "nan|g". repeat split.
  - reflexivity.
  - reflexivity.
Defined.

(** [timer_appends] for a sample that is too large for a double. *)
Lemma timer_appends_witness :
  exists st',
    process "orders:1e400|ms" busy_processor = Ok tt st'
    /\ timer_metrics st'
       = <[normalize_key "orders" :=
             (default [] (timer_metrics busy_processor
                          !! normalize_key "orders")
              ++ [Num.Inf false])%list]>
           (timer_metrics busy_processor)
    /\ counter_metrics st' = counter_metrics busy_processor
    /\ gauge_metrics st' = gauge_metrics busy_processor
    /\ meter_metrics st' = meter_metrics busy_processor
    /\ plugin_metrics st' = plugin_metrics busy_processor
    /\ log st' = log busy_processor
    /\ by_type st' !! "ms"
       = Some (default 0 (by_type busy_processor !! "ms") + 1)%Z.
Proof.
  apply (timer_appends "orders:1e400|ms" "orders" "1e400" ["ms"]
                       (Num.Inf false) busy_processor).
  - exists "1e400|ms". repeat split.
  - vm_compute. reflexivity.
Defined.
